(** * Visual memory engine (src/visual_memory.h)

    A shallow embedding of [VisualMemory]: the pixel index builder and the
    memory-mapped store set up by [start], one sweep of [learnWorker] with
    its publish step, and the snapshot encoder [debug].

    The arithmetic of the C++ code is kept abstract in a class [Arith], so
    that every function of the source is written once and read at two
    instances:
    - [Q], exact rational arithmetic, for the algebraic laws;
    - [spec_float] at precision 53 and exponent bound 1024, the IEEE 754
      binary64 format of [memory_t = double], for what the compiled code
      computes at concrete inputs, special values included.
    Values of C type [float] are carried in the same type as [double]. *)

From Stdlib Require Import ZArith QArith Qabs Qpower Qround Lqa Lia SpecFloat String Sorted.
From stdpp Require Import base list.

Local Open Scope nat_scope.

(** ** Arithmetic interface *)

Declare Scope arith_scope.
Delimit Scope arith_scope with A.

Class Arith (T : Type) := {
  ofZ : Z -> T;                (* integer literal or integer-to-double conversion *)
  add : T -> T -> T;
  sub : T -> T -> T;
  mul : T -> T -> T;
  div : T -> T -> T;
  ltb : T -> T -> bool;        (* a < b *)
  geb : T -> T -> bool;        (* a >= b *)
  truthy : T -> bool;          (* a double used as a condition: a != 0 *)
}.

Infix "+" := add : arith_scope.
Infix "-" := sub : arith_scope.
Infix "*" := mul : arith_scope.
Infix "/" := div : arith_scope.

(** Exact rationals.  [Qdiv] by zero is 0, so only functions whose divisors
    are nonzero constants or guarded are read at this instance. *)
#[export] Instance ArithQ : Arith Q := {
  ofZ := inject_Z;
  add := Qplus;
  sub := Qminus;
  mul := Qmult;
  div := Qdiv;
  ltb a b := negb (Qle_bool b a);
  geb a b := Qle_bool b a;
  truthy a := negb (Qeq_bool a 0);
}.

(** IEEE 754 binary64, round to nearest even. *)
Definition double : Type := spec_float.

#[export] Instance ArithDouble : Arith double := {
  ofZ z := binary_normalize 53 1024 z 0 false;
  add := SFadd 53 1024;
  sub := SFsub 53 1024;
  mul := SFmul 53 1024;
  div := SFdiv 53 1024;
  ltb a b := SFltb a b;
  geb a b := SFleb b a;
  truthy a := negb (SFeqb a (S754_zero false));
}.

(** ** Faults: what the C++ leaves undefined *)

Inductive vec :=
  | DenseToSparsePixelIndex | MemoryBuffer | RecallBuffer | RecallAccumulator
  | LearnFlags | Image.

Inductive fault :=
  | OutOfRange (v : vec) (index size : nat)
  | DivisionByZero
  | DoubleToInt.

Inductive result (A : Type) :=
  | Ok (a : A)
  | Fault (f : fault).
Arguments Ok {A} a.
Arguments Fault {A} f.

#[export] Instance result_bind : MBind result := fun A B k r =>
  match r with
  | Ok a => k a
  | Fault f => Fault f
  end.

(** [v[i]] as an rvalue and [v[i] = x], both undefined out of range. *)
Definition vget {A} (v : vec) (l : list A) (i : nat) : result A :=
  match l !! i with
  | Some x => Ok x
  | None => Fault (OutOfRange v i (length l))
  end.

Definition vset {A} (v : vec) (l : list A) (i : nat) (x : A) : result (list A) :=
  if decide (i < length l) then Ok (<[i := x]> l)
  else Fault (OutOfRange v i (length l)).

(** [for (x : l) s = f(x, s)], stopping at the first fault. *)
Fixpoint forEach {A S} (f : A -> S -> result S) (l : list A) (s : S) : result S :=
  match l with
  | [] => Ok s
  | x :: l' => s' ← f x s; forEach f l' s'
  end.

(** [std::vector::resize]: truncate, or extend with value-initialised elements. *)
Definition resize {A} (n : nat) (zero : A) (l : list A) : list A :=
  take n l ++ replicate (n - length l) zero.

(** ** Data model *)

Section Engine.
Context {T : Type} {arith : Arith T}.
Local Open Scope arith_scope.

Record Cell := { shortTerm : T; longTerm : T }.

Definition Vec3 : Type := T * T * T.

(** [EffectTap::Frame] is declared outside the sources at hand; only its
    per-pixel colour lookup is used. *)
Record Frame := { colors : nat -> Vec3 }.

(** The members of [class VisualMemory] that [start] and [learnWorker]
    touch.  [mappedMemory] is the pointer value returned by [mmap];
    [learnThread] tells whether the learning thread has been created. *)
Record VisualMemory := {
  learnFlags : list bool;
  mappedMemory : Z;
  mappedMemorySize : N;
  recallBuffer : list T;
  recallAccumulator : list T;
  recallTolerance : list T;
  denseToSparsePixelIndex : list nat;
  learnThread : bool;
}.

Definition set_learnFlags (v : list bool) (self : VisualMemory) : VisualMemory :=
  {| learnFlags := v; mappedMemory := mappedMemory self;
     mappedMemorySize := mappedMemorySize self; recallBuffer := recallBuffer self;
     recallAccumulator := recallAccumulator self;
     recallTolerance := recallTolerance self;
     denseToSparsePixelIndex := denseToSparsePixelIndex self;
     learnThread := learnThread self |}.

Definition set_mapping (p : Z) (n : N) (self : VisualMemory) : VisualMemory :=
  {| learnFlags := learnFlags self; mappedMemory := p;
     mappedMemorySize := n; recallBuffer := recallBuffer self;
     recallAccumulator := recallAccumulator self;
     recallTolerance := recallTolerance self;
     denseToSparsePixelIndex := denseToSparsePixelIndex self;
     learnThread := learnThread self |}.

Definition set_recallBuffer (v : list T) (self : VisualMemory) : VisualMemory :=
  {| learnFlags := learnFlags self; mappedMemory := mappedMemory self;
     mappedMemorySize := mappedMemorySize self; recallBuffer := v;
     recallAccumulator := recallAccumulator self;
     recallTolerance := recallTolerance self;
     denseToSparsePixelIndex := denseToSparsePixelIndex self;
     learnThread := learnThread self |}.

Definition set_recallAccumulator (v : list T) (self : VisualMemory) : VisualMemory :=
  {| learnFlags := learnFlags self; mappedMemory := mappedMemory self;
     mappedMemorySize := mappedMemorySize self; recallBuffer := recallBuffer self;
     recallAccumulator := v;
     recallTolerance := recallTolerance self;
     denseToSparsePixelIndex := denseToSparsePixelIndex self;
     learnThread := learnThread self |}.

Definition set_recallTolerance (v : list T) (self : VisualMemory) : VisualMemory :=
  {| learnFlags := learnFlags self; mappedMemory := mappedMemory self;
     mappedMemorySize := mappedMemorySize self; recallBuffer := recallBuffer self;
     recallAccumulator := recallAccumulator self;
     recallTolerance := v;
     denseToSparsePixelIndex := denseToSparsePixelIndex self;
     learnThread := learnThread self |}.

Definition set_denseToSparsePixelIndex (v : list nat) (self : VisualMemory) : VisualMemory :=
  {| learnFlags := learnFlags self; mappedMemory := mappedMemory self;
     mappedMemorySize := mappedMemorySize self; recallBuffer := recallBuffer self;
     recallAccumulator := recallAccumulator self;
     recallTolerance := recallTolerance self;
     denseToSparsePixelIndex := v;
     learnThread := learnThread self |}.

Definition set_learnThread (b : bool) (self : VisualMemory) : VisualMemory :=
  {| learnFlags := learnFlags self; mappedMemory := mappedMemory self;
     mappedMemorySize := mappedMemorySize self; recallBuffer := recallBuffer self;
     recallAccumulator := recallAccumulator self;
     recallTolerance := recallTolerance self;
     denseToSparsePixelIndex := denseToSparsePixelIndex self;
     learnThread := b |}.

(** A [VisualMemory] object before [start]: empty vectors, a cleared
    [learnFlags] bitset of [kSamples] bits, no mapping, no thread. *)
Definition newVisualMemory (kSamples : nat) : VisualMemory :=
  {| learnFlags := replicate kSamples false; mappedMemory := 0;
     mappedMemorySize := 0; recallBuffer := [];
     recallAccumulator := []; recallTolerance := [];
     denseToSparsePixelIndex := []; learnThread := false |}.

Definition kMotionThreshold : T := ofZ 100.
Definition kShortTermPermeability : T := ofZ 1 / ofZ 10.
Definition kLongTermPermeability : T := ofZ 1 / ofZ 10000.

(** [std::min(a, b)] returns [b] when [b < a], else [a]. *)
Definition std_min (a b : T) : T := if ltb b a then b else a.

(** [std::max(a, b)] returns [b] when [a < b], else [a]. *)
Definition std_max (a b : T) : T := if ltb a b then b else a.

(** ** [VisualMemory::start] *)

(** What the operating system answers to the three calls of [start]:
    [open] returns a descriptor or -1, [ftruncate] 0 or -1, [mmap] the
    address of the mapping or [MAP_FAILED]. *)
Record Os := { open_result : Z; ftruncate_result : Z; mmap_result : Z }.

(** [MAP_FAILED] of [<sys/mman.h>] is [(void * ) -1]. *)
Definition MAP_FAILED : Z := -1.

(** [sizeof(Cell)]: two doubles. *)
Definition sizeof_Cell : N := 16.

Inductive logline :=
  | LogCells (samples denseSize cells : N)
  | PError (msg : string)
  | LogMapped (cells : N) (address : Z).

(** [unsigned] arithmetic wraps modulo 2^32. *)
Definition unsigned (n : N) : N := (n mod 2 ^ 32)%N.

(** Lines 114-120: the densely packed pixel index, skipping unmapped
    pixels.  [pixelInfo] lists [isMapped()] of every pixel. *)
Fixpoint buildIndex (i : nat) (pixelInfo : list bool) (index : list nat) : list nat :=
  match pixelInfo with
  | [] => index
  | isMapped :: rest =>
      buildIndex (S i) rest (if isMapped then index ++ [i] else index)
  end.

(** [start] on the object [self], with the backing file [file] ([None]: no
    file at [memoryPath]).  Returns the object, the file and what went to
    [stderr]. *)
Definition start (kSamples : nat) (os : Os) (file : option (list Byte.byte))
    (pixelInfo : list bool) (self : VisualMemory)
  : VisualMemory * option (list Byte.byte) * list logline :=
  let self := set_denseToSparsePixelIndex (buildIndex 0 pixelInfo []) self in
  let denseSize := length (denseToSparsePixelIndex self) in
  let cells := unsigned (N.of_nat kSamples * N.of_nat denseSize) in
  let log := [LogCells (N.of_nat kSamples) (N.of_nat denseSize) cells] in
  let self := set_recallBuffer (resize (length pixelInfo) (ofZ 0) (recallBuffer self)) self in
  let self := set_recallAccumulator (resize denseSize (ofZ 0) (recallAccumulator self)) self in
  let self := set_recallTolerance (resize denseSize (ofZ 0) (recallTolerance self)) self in
  let self := set_recallTolerance (map (fun _ => ofZ 1) (recallTolerance self)) self in
  if (open_result os <? 0)%Z then
    (self, file, log ++ [PError "vismem: Error opening mapping file"])
  else
    (* O_CREAT: the file exists from here on *)
    let content := default [] file in
    if negb (ftruncate_result os =? 0)%Z then
      (self, Some content, log ++ [PError "vismem: Error setting length of mapping file"])
    else
      let content := resize (N.to_nat (cells * sizeof_Cell)) Byte.x00 content in
      let self := set_mapping (mmap_result os) cells self in
      if (mappedMemory self =? 0)%Z then
        (self, Some content, log ++ [PError "vismem: Error mapping memory file"])
      else
        let log := log ++ [LogMapped (mappedMemorySize self) (mappedMemory self)] in
        (set_learnThread true self, Some content, log)
  .

(** ** [VisualMemory::learnWorker] *)

(** What one sample slot reads during a sweep: [sobel.motion[sampleIndex]],
    [luminance.buffer[sampleIndex]], the value of [prng.uniform()] and the
    answer of [tap->get(LatencyTimer::kExpectedDelay)] ([None]: the frame is
    not in the tap's buffer yet). *)
Record SlotInput := {
  motion : T;
  luma : Z;
  uniform : T;
  delayed : option Frame;
}.

(** Lines 186-196. *)
Definition reinforcementFunction (luminance : Z) (led : Vec3) : T :=
  let '(led0, led1, led2) := led in
  let r := std_min (ofZ 1) led0 in
  let g := std_min (ofZ 1) led1 in
  let b := std_min (ofZ 1) led2 in
  let lumaSq := ofZ (luminance * luminance) / ofZ 65025 in
  let pixSq := (r * r + g * g + b * b) / ofZ 3 in
  lumaSq * pixSq.

(** Lines 231-233: [r = prng.uniform(); r *= r; motion / kMotionThreshold >= r]. *)
Definition isLearning (motion u : T) : bool :=
  let r := u in
  let r := r * r in
  geb (motion / kMotionThreshold) r.

(** Line 257. *)
Definition shortTermUpdate (shortTerm reinforcement : T) : T :=
  (shortTerm - shortTerm * kShortTermPermeability) + reinforcement.

(** Lines 260-261. *)
Definition longTermUpdate (shortTerm longTerm : T) : T :=
  let r := shortTerm - longTerm in
  longTerm + (r * r * r) * kLongTermPermeability.

(** Lines 253-263: the new content of one cell. *)
Definition learnCell (state : Cell) (reinforcement : T) : Cell :=
  let st := shortTermUpdate (shortTerm state) reinforcement in
  {| shortTerm := st; longTerm := longTermUpdate st (longTerm state) |}.

(** The state a sweep works on: the object, the cells of the mapping and
    the local [recallTotal]. *)
Record Worker := {
  self : VisualMemory;
  memoryBuffer : list Cell;
  recallTotal : T;
}.

(** Lines 250-270: the body of the loop over [denseIndex]. *)
Definition learnLed (sampleIndex denseSize : nat) (motion : T) (luma : Z)
    (effectFrame : Frame) (denseIndex : nat) (w : Worker) : result Worker :=
  sparseIndex ← vget DenseToSparsePixelIndex
                  (denseToSparsePixelIndex (self w)) denseIndex;
  let pixel := colors effectFrame sparseIndex in
  let cell := (sampleIndex * denseSize + denseIndex)%nat in
  state ← vget MemoryBuffer (memoryBuffer w) cell;
  let reinforcement := reinforcementFunction luma pixel in
  let state := learnCell state reinforcement in
  let memory := <[cell := state]> (memoryBuffer w) in
  let acc := motion * longTerm state in
  a ← vget RecallAccumulator (recallAccumulator (self w)) sparseIndex;
  let accumulator := <[sparseIndex := a + acc]> (recallAccumulator (self w)) in
  Ok {| self := set_recallAccumulator accumulator (self w);
        memoryBuffer := memory;
        recallTotal := recallTotal w + acc |}.

(** Lines 222-271: the body of the loop over [sampleIndex]. *)
Definition learnSlot (denseSize sampleIndex : nat) (slot : SlotInput)
    (w : Worker) : result Worker :=
  let learning := isLearning (motion slot) (uniform slot) in
  flags ← vset LearnFlags (learnFlags (self w)) sampleIndex learning;
  let w := {| self := set_learnFlags flags (self w);
              memoryBuffer := memoryBuffer w;
              recallTotal := recallTotal w |} in
  if negb learning then Ok w
  else
    match delayed slot with
    | None => Ok w                  (* usleep(10 * 1000); continue *)
    | Some effectFrame =>
        forEach (learnLed sampleIndex denseSize (motion slot) (luma slot) effectFrame)
                (seq 0 denseSize) w
    end.

Fixpoint learnSlots (denseSize sampleIndex : nat) (slots : list SlotInput)
    (w : Worker) : result Worker :=
  match slots with
  | [] => Ok w
  | slot :: rest =>
      w' ← learnSlot denseSize sampleIndex slot w;
      learnSlots denseSize (S sampleIndex) rest w'
  end.

(** Line 277. *)
Definition recallScale (denseSize : nat) (recallTotal : T) : T :=
  if truthy recallTotal then ofZ (Z.of_nat denseSize) / recallTotal else ofZ 0.

(** Lines 278-281: the body of the publish loop. *)
Definition publishLed (scale : T) (denseIndex : nat) (self : VisualMemory)
  : result VisualMemory :=
  sparseIndex ← vget DenseToSparsePixelIndex (denseToSparsePixelIndex self) denseIndex;
  a ← vget RecallAccumulator (recallAccumulator self) denseIndex;
  buffer ← vset RecallBuffer (recallBuffer self) sparseIndex (a * scale - ofZ 1);
  Ok (set_recallBuffer buffer self).

(** Lines 277-281. *)
Definition publish (denseSize : nat) (w : Worker) : result VisualMemory :=
  forEach (publishLed (recallScale denseSize (recallTotal w))) (seq 0 denseSize) (self w).

(** Lines 219-281: one turn of [while (true)], on the inputs [slots] of its
    [kSamples] sample slots.  The performance counters are left out. *)
Definition sweep (slots : list SlotInput) (state : VisualMemory * list Cell)
  : result (VisualMemory * list Cell) :=
  let '(self0, memory) := state in
  let denseSize := length (denseToSparsePixelIndex self0) in
  let w := {| self := set_recallAccumulator
                        (map (fun _ => ofZ 0) (recallAccumulator self0)) self0;
              memoryBuffer := memory;
              recallTotal := ofZ 0 |} in
  w ← learnSlots denseSize 0 slots w;
  self1 ← publish denseSize w;
  Ok (self1, memoryBuffer w).

(** The first [length sweeps] turns of the loop. *)
Definition learnWorker (sweeps : list (list SlotInput))
    (state : VisualMemory * list Cell) : result (VisualMemory * list Cell) :=
  forEach sweep sweeps state.

End Engine.

Arguments Cell T : clear implicits.
Arguments Vec3 T : clear implicits.
Arguments Frame T : clear implicits.
Arguments VisualMemory T : clear implicits.
Arguments SlotInput T : clear implicits.
Arguments Worker T : clear implicits.

(** ** [VisualMemory::debug]

    The snapshot encoder divides by [cellMax] without a test, so what it
    writes depends on the IEEE special values: it is read at binary64 only. *)

(** The constants and block coordinates of [CameraSampler8Q], declared
    outside the sources at hand. *)
Record CameraSampler8Q := {
  kSamples : nat;
  kBlocksWide : nat;
  kBlocksHigh : nat;
  blockX : nat -> nat;
  blockY : nat -> nat;
}.

Definition in_int_range (v : Z) : bool := ((- 2 ^ 31 <=? v) && (v <? 2 ^ 31))%Z.

(** Conversion of a [double] to [int]: truncation toward zero, undefined
    for NaN, infinities and values outside the range of [int]. *)
Definition double_to_int (x : double) : result Z :=
  match x with
  | S754_zero _ => Ok 0%Z
  | S754_finite s m e =>
      let a := (if 0 <=? e then Z.pos m * 2 ^ e else Z.pos m / 2 ^ (- e))%Z in
      let v := if s then (- a)%Z else a in
      if in_int_range v then Ok v else Fault DoubleToInt
  | _ => Fault DoubleToInt
  end.

(** [int(ceilf(x))]; the rounding of [x] to binary32 is not modelled. *)
Definition ceil_to_int (x : double) : result Z :=
  match x with
  | S754_zero _ => Ok 0%Z
  | S754_finite s m e =>
      let v := (if 0 <=? e then (if s then - Z.pos m else Z.pos m) * 2 ^ e
                else - ((if s then Z.pos m else - Z.pos m) / 2 ^ (- e)))%Z in
      if in_int_range v then Ok v else Fault DoubleToInt
  | _ => Fault DoubleToInt
  end.

Definition uint8_t (v : Z) : Z := (v mod 256)%Z.

(** Lines 313-317. *)
Definition cellMaxOf (memoryBuffer : list (Cell double)) : result double :=
  first ← vget MemoryBuffer memoryBuffer 0;
  forEach (fun c cellMax =>
             cell ← vget MemoryBuffer memoryBuffer c;
             Ok (std_max cellMax (longTerm cell)))
          (seq 1 (length memoryBuffer - 1)) (longTerm first).

(** Lines 334-338, for one of the two fields of a cell:
    [std::min<memory_t>(255.5f, s*s*s*s * 255.0f + 0.5f)] converted to [int]. *)
Definition channel (field cellScale : double) : result Z :=
  let s := (field * cellScale)%A in
  double_to_int (std_min (ofZ 511 / ofZ 2)%A (s * s * s * s * ofZ 255 + ofZ 1 / ofZ 2)%A).

(** Lines 325-341: the body of the loop over [led]. *)
Definition debugLed (cs : CameraSampler8Q) (memoryBuffer : list (Cell double))
    (denseSize ledsWide width : nat) (cellScale : double)
    (sample led : nat) (image : list Z) : result (list Z) :=
  let sx := blockX cs sample in
  let sy := blockY cs sample in
  let x := sx + (led mod ledsWide) * kBlocksWide cs in
  let y := sy + (led / ledsWide) * kBlocksHigh cs in
  cell ← vget MemoryBuffer memoryBuffer (sample * denseSize + led);
  let pixel := 3 * (y * width + x) in
  shortTermI ← channel (shortTerm cell) cellScale;
  longTermI ← channel (longTerm cell) cellScale;
  image ← vset Image image pixel (uint8_t shortTermI);
  image ← vset Image image (pixel + 2) (uint8_t longTermI);
  vset Image image (pixel + 1) (uint8_t longTermI).

(** Lines 298-343: the raster handed to [lodepng_encode_file], with its
    width and height. *)
Definition debug (cs : CameraSampler8Q) (self : VisualMemory double)
    (memoryBuffer : list (Cell double)) : result (nat * nat * list Z) :=
  let denseSize := length (denseToSparsePixelIndex self) in
  w ← ceil_to_int (SFsqrt 53 1024 (ofZ (Z.of_nat denseSize)));
  let ledsWide := Z.to_nat w in
  let width := ledsWide * kBlocksWide cs in
  if decide (ledsWide = 0) then Fault DivisionByZero
  else
    let ledsHigh := (denseSize + ledsWide - 1) / ledsWide in
    let height := ledsHigh * kBlocksHigh cs in
    let image := resize (width * height * 3) 0%Z [] in
    cellMax ← cellMaxOf memoryBuffer;
    let cellScale := (ofZ 1 / cellMax)%A in
    image ← forEach (fun sample image =>
                       forEach (debugLed cs memoryBuffer denseSize ledsWide width
                                         cellScale sample)
                               (seq 0 denseSize) image)
                    (seq 0 (kSamples cs)) image;
    Ok (width, height, image).

(** ** [RecallDebugEffect::shader] and [VisualMemory::recall] *)

(** Lines 169-172. *)
Definition recall {T} (this : VisualMemory T) : list T := recallBuffer this.


(** Lines 94-98: the grey level
    [std::min(1.0, std::max(0.0, 0.5 + mem->recall()[p.index] * sensitivity))]
    given to the three channels; the narrowing of this double to [float] is
    not modelled. *)
Definition shader {T} `{Arith T} (mem : VisualMemory T) (sensitivity : T)
    (index : nat) : result (Vec3 T) :=
  r ← vget RecallBuffer (recall mem) index;
  let f := std_min (ofZ 1) (std_max (ofZ 0) (ofZ 1 / ofZ 2 + r * sensitivity)%A) in
  Ok (f, f, f).

(** ** Derived notions *)

(** What [start] establishes and every sweep relies on: one flag per sample
    slot, one accumulator entry per dense pixel, and every sparse index
    inside the recall buffer. *)
Definition wellFormed {T} (nSamples : nat) (self : VisualMemory T) : Prop :=
  length (learnFlags self) = nSamples /\
  length (recallAccumulator self) = length (denseToSparsePixelIndex self) /\
  Forall (fun sparseIndex => sparseIndex < length (recallBuffer self))
         (denseToSparsePixelIndex self).

#[export] Instance wellFormed_dec {T} nSamples (self : VisualMemory T) :
  Decision (wellFormed nSamples self).
Proof. unfold wellFormed. apply _. Defined.

(** [n] updates of the short-term memory of one cell under the constant
    reinforcement [x]. *)
Definition shortTermIter {T} `{Arith T} (n : nat) (shortTerm x : T) : T :=
  Nat.iter n (fun s => shortTermUpdate s x) shortTerm.


Definition Qsum (l : list Q) : Q := foldr Qplus 0%Q l.

Definition is_PError (l : logline) : bool :=
  match l with PError _ => true | _ => false end.

(** *** Concrete inputs *)

Definition os_ok : Os := {| open_result := 3; ftruncate_result := 0; mmap_result := 4096 |}.

Definition os_map_failed : Os :=
  {| open_result := 3; ftruncate_result := 0; mmap_result := MAP_FAILED |}.

Definition zeroCell : Cell double :=
  {| shortTerm := S754_zero false; longTerm := S754_zero false |}.

Definition white : Frame double := {| colors := fun _ => (ofZ 1, ofZ 1, ofZ 1) |}.

Definition whiteQ : Frame Q := {| colors := fun _ => (1, 1, 1)%Q |}.

(** A sampler of two sample blocks side by side. *)
Definition sampler2 : CameraSampler8Q :=
  {| kSamples := 2; kBlocksWide := 2; kBlocksHigh := 1;
     blockX := fun sample => sample; blockY := fun _ => 0 |}.


(** A delayed frame whose pixel 0 is white and whose other pixels are grey. *)
Definition twoToneQ : Frame Q :=
  {| colors := fun i => if Nat.eqb i 0 then (1, 1, 1)%Q
                        else (1 # 2, 1 # 2, 1 # 2)%Q |}.

Definition zeroCellQ : Cell Q := {| shortTerm := 0%Q; longTerm := 0%Q |}.

(** A slot reading full luminance over a white delayed frame, with motion
    [m] and draw [u]. *)
Definition slotQ (m u : Q) : SlotInput Q :=
  {| motion := m; luma := 255; uniform := u; delayed := Some whiteQ |}.

Definition slotD (m u : double) : SlotInput double :=
  {| motion := m; luma := 255; uniform := u; delayed := Some white |}.

(** The recall buffer and the learn flags a sweep leaves, if it completes. *)
Definition recallAfter {T} (r : result (VisualMemory T * list (Cell T))) : option (list T) :=
  match r with
  | Ok (this, _) => Some (recallBuffer this)
  | Fault _ => None
  end.


(** The sum of the recall buffer over the dense pixels. *)
Definition recallSum (this : VisualMemory Q) : Q :=
  Qsum (map (fun sparseIndex => default 0%Q (recallBuffer this !! sparseIndex))
            (denseToSparsePixelIndex this)).

Definition finite (x : double) : bool :=
  match x with
  | S754_zero _ | S754_finite _ _ _ => true
  | _ => false
  end.

(** A cell whose two memories lie between 0 and the fixed point
    [1 / kShortTermPermeability = 10] of the largest reinforcement. *)
Definition inBox (c : Cell Q) : Prop :=
  (0 <= shortTerm c <= 10)%Q /\ (0 <= longTerm c <= 10)%Q.

(** What the learning loop reads for a slot is in range: a luminance byte
    and, when there is a delayed frame, colours that are not negative. *)
Definition slotInRange (slot : SlotInput Q) : Prop :=
  (0 <= luma slot <= 255)%Z /\
  forall frame, delayed slot = Some frame ->
    forall sparseIndex,
      let '(r, g, b) := colors frame sparseIndex in
      (0 <= r)%Q /\ (0 <= g)%Q /\ (0 <= b)%Q.

(** The members no sweep writes: the mapping, the tolerance buffer, the
    dense index and the thread. *)
Definition fixedMembers {T} (this : VisualMemory T)
  : Z * N * list T * list nat * bool :=
  (mappedMemory this, mappedMemorySize this, recallTolerance this,
   denseToSparsePixelIndex this, learnThread this).


(** A fault other than a write outside the raster of [debug]. *)
Definition notImage (f : fault) : Prop :=
  match f with
  | OutOfRange Image _ _ => False
  | _ => True
  end.

(** * Properties *)

Ltac arithQ := cbn [ofZ add sub mul div ltb geb truthy ArithQ] in *.

Lemma kMotionThreshold_Q : kMotionThreshold (T := Q) = 100%Q.
Proof. reflexivity. Qed.

Lemma kShortTermPermeability_Q : kShortTermPermeability (T := Q) = (1 # 10)%Q.
Proof. reflexivity. Qed.

Lemma kLongTermPermeability_Q : kLongTermPermeability (T := Q) = (1 # 10000)%Q.
Proof. reflexivity. Qed.


(** ** The learning gate *)

Lemma isLearning_above_threshold (m u : Q) :
  (kMotionThreshold <= m)%Q -> (0 <= u)%Q -> (u < 1)%Q -> isLearning m u = true.
Proof.
  unfold isLearning. rewrite kMotionThreshold_Q. arithQ. intros Hm Hu0 Hu1.
  apply Qle_bool_iff.
  assert (u * u <= 1)%Q by nra.
  apply Qle_shift_div_l; lra.
Qed.


(** ** The update of one cell *)


Lemma Qmult_pos_pos (a b : Q) : (0 < a)%Q -> (0 < b)%Q -> (0 < a * b)%Q.
Proof. intros Ha Hb. apply Qmult_lt_0_compat; assumption. Qed.

(** The cubic law on the gap [d = shortTerm - longTerm]: inside the radius
    [d * d * pLong < 2] the gap shrinks. *)
Lemma cubic_contracts (d : Q) :
  (d * d * (1 # 10000) < 2)%Q ->
  (Qabs (d - d * d * d * (1 # 10000)) <= Qabs d)%Q /\
  (~ (d == 0)%Q -> (Qabs (d - d * d * d * (1 # 10000)) < Qabs d)%Q).
Proof.
  intros H.
  destruct (Qeq_dec d 0) as [Hz|Hnz].
  { split; [|contradiction]. rewrite Hz. discriminate. }
  destruct (Qlt_le_dec d 0) as [Hn|Hp].
  - pose proof (Qmult_pos_pos (- d) (- d) ltac:(lra) ltac:(lra)) as H1.
    pose proof (Qmult_pos_pos (- d) (d * d) ltac:(lra) ltac:(lra)) as H2.
    pose proof (Qmult_pos_pos (- d) (2 - d * d * (1 # 10000)) ltac:(lra) ltac:(lra)) as H3.
    rewrite (Qabs_neg d) by lra. split; [|intros _].
    + apply Qabs_Qle_condition. split; lra.
    + apply Qabs_Qlt_condition. split; lra.
  - assert (Hd : (0 < d)%Q) by lra.
    pose proof (Qmult_pos_pos d d ltac:(lra) ltac:(lra)) as H1.
    pose proof (Qmult_pos_pos d (d * d) ltac:(lra) ltac:(lra)) as H2.
    pose proof (Qmult_pos_pos d (2 - d * d * (1 # 10000)) ltac:(lra) ltac:(lra)) as H3.
    rewrite (Qabs_pos d) by lra. split; [|intros _].
    + apply Qabs_Qle_condition. split; lra.
    + apply Qabs_Qlt_condition. split; lra.
Qed.

(** Outside the radius the gap grows. *)
Lemma cubic_expands (d : Q) :
  (2 < d * d * (1 # 10000))%Q ->
  (Qabs d < Qabs (d - d * d * d * (1 # 10000)))%Q.
Proof.
  intros H.
  destruct (Qlt_le_dec d 0) as [Hn|Hp].
  - pose proof (Qmult_pos_pos (- d) (d * d * (1 # 10000) - 2) ltac:(lra) ltac:(lra)) as H3.
    rewrite (Qabs_neg d) by lra. rewrite Qabs_pos; lra.
  - destruct (Qeq_dec d 0) as [Hz|Hnz].
    { rewrite Hz in H. exfalso. revert H. discriminate. }
    pose proof (Qmult_pos_pos d (d * d * (1 # 10000) - 2) ltac:(lra) ltac:(lra)) as H3.
    rewrite (Qabs_pos d) by lra. rewrite Qabs_neg; lra.
Qed.

Lemma longTermUpdate_gap (s l : Q) :
  (s - longTermUpdate s l == (s - l) - (s - l) * (s - l) * (s - l) * (1 # 10000))%Q.
Proof. unfold longTermUpdate. rewrite kLongTermPermeability_Q. arithQ. ring. Qed.



Lemma shortTermUpdate_gap (s x : Q) :
  (shortTermUpdate s x - x / kShortTermPermeability
   == (9 # 10) * (s - x / kShortTermPermeability))%Q.
Proof. unfold shortTermUpdate. rewrite kShortTermPermeability_Q. arithQ. field. Qed.

Lemma shortTermIter_S (n : nat) (s x : Q) :
  shortTermIter (S n) s x = shortTermUpdate (shortTermIter n s x) x.
Proof. reflexivity. Qed.

Lemma shortTermIter_gap (n : nat) (s x : Q) :
  (Qabs (shortTermIter n s x - x / kShortTermPermeability)
   == (9 # 10) ^ Z.of_nat n * Qabs (s - x / kShortTermPermeability))%Q.
Proof.
  induction n as [|n IH].
  - change ((9 # 10) ^ Z.of_nat 0)%Q with 1%Q.
    change (shortTermIter 0 s x) with s. ring.
  - rewrite shortTermIter_S, shortTermUpdate_gap, Qabs_Qmult, IH.
    rewrite Nat2Z.inj_succ, <- Z.add_1_l, Qpower_plus by discriminate.
    rewrite (Qabs_pos (9 # 10)) by discriminate.
    change ((9 # 10) ^ 1)%Q with (9 # 10)%Q. ring.
Qed.

(** [(9/10)^n] is at most [9 / (n + 9)]. *)
Lemma pow_9_10_bound (n : nat) :
  (0 < (9 # 10) ^ Z.of_nat n)%Q /\
  ((9 # 10) ^ Z.of_nat n * inject_Z (Z.of_nat n + 9) <= 9)%Q.
Proof.
  split; [apply Qpower_0_lt; reflexivity|].
  induction n as [|n IH].
  - cbn. discriminate.
  - assert (IH0 : (0 < (9 # 10) ^ Z.of_nat n)%Q) by (apply Qpower_0_lt; reflexivity).
    rewrite Nat2Z.inj_succ, <- Z.add_1_l, Qpower_plus by discriminate.
    change ((9 # 10) ^ 1)%Q with (9 # 10)%Q.
    set (p := ((9 # 10) ^ Z.of_nat n)%Q) in *.
    replace (1 + Z.of_nat n + 9)%Z with ((Z.of_nat n + 9) + 1)%Z by lia.
    rewrite inject_Z_plus. change (inject_Z 1) with 1%Q.
    rewrite inject_Z_plus in IH |- *. change (inject_Z 9) with 9%Q in *.
    assert (Hn : (0 <= inject_Z (Z.of_nat n))%Q).
    { change 0%Q with (inject_Z 0). rewrite <- Zle_Qle. lia. }
    generalize dependent (inject_Z (Z.of_nat n)). intros q IH Hq.
    assert (Hpq : (0 <= p * q)%Q) by (apply Qmult_le_0_compat; lra).
    nra.
Qed.

(** Under a constant reinforcement [x] the short-term memory converges to
    [x / kShortTermPermeability] from every start. *)
Lemma shortTermIter_converges (s x eps : Q) :
  (0 < eps)%Q ->
  exists N : nat, forall n : nat, (N <= n)%nat ->
    (Qabs (shortTermIter n s x - x / kShortTermPermeability) < eps)%Q.
Proof.
  intros Heps. set (D := Qabs (s - x / kShortTermPermeability)).
  assert (HD : (0 <= D)%Q) by apply Qabs_nonneg.
  exists (Z.to_nat (Qceiling (9 * D / eps))). intros n Hn.
  rewrite shortTermIter_gap. fold D.
  destruct (pow_9_10_bound n) as [Hp0 Hp].
  set (p := ((9 # 10) ^ Z.of_nat n)%Q) in *.
  assert (Hq : (9 * D / eps <= inject_Z (Z.of_nat n))%Q).
  { eapply Qle_trans; [apply Qle_ceiling|]. rewrite <- Zle_Qle. lia. }
  rewrite inject_Z_plus in Hp. change (inject_Z 9) with 9%Q in Hp.
  generalize dependent (inject_Z (Z.of_nat n)). intros q Hp Hq.
  assert (Hq' : (9 * D <= q * eps)%Q).
  { assert (E : (9 * D == 9 * D / eps * eps)%Q) by (field; lra).
    rewrite E. apply Qmult_le_compat_r; [exact Hq|lra]. }
  assert (H1 : (p * (9 * D) <= p * (q * eps))%Q).
  { rewrite !(Qmult_comm p). apply Qmult_le_compat_r; [exact Hq'|lra]. }
  assert (H2 : (eps * (p * q) <= eps * (9 - 9 * p))%Q).
  { rewrite !(Qmult_comm eps). apply Qmult_le_compat_r; lra. }
  pose proof (Qmult_pos_pos eps p Heps Hp0). lra.
Qed.





(** ** [start]: the pixel index and the memory store *)

Section StartFacts.
Context {T : Type} {arith : Arith T}.

Lemma length_resize {A} (n : nat) (z : A) (l : list A) : length (resize n z l) = n.
Proof.
  unfold resize. rewrite length_app, length_take, length_replicate. lia.
Qed.

Lemma buildIndex_inv (pixelInfo : list bool) (i : nat) (index : list nat) :
  Forall (fun k => k < i) index -> NoDup index ->
  Forall (fun k => k < i + length pixelInfo) (buildIndex i pixelInfo index) /\
  NoDup (buildIndex i pixelInfo index).
Proof.
  revert i index. induction pixelInfo as [|b rest IH]; intros i index Hlt Hnd.
  - cbn. split; [|exact Hnd]. eapply Forall_impl; [exact Hlt|]. cbn. lia.
  - cbn [buildIndex length].
    replace (i + S (length rest)) with (S i + length rest) by lia.
    apply IH.
    + destruct b.
      * apply Forall_app. split.
        -- eapply Forall_impl; [exact Hlt|]. cbn. lia.
        -- repeat constructor.
      * eapply Forall_impl; [exact Hlt|]. cbn. lia.
    + destruct b; [|exact Hnd].
      apply NoDup_app. split; [exact Hnd|]. split; [|apply NoDup_singleton].
      intros k Hk Hk'. apply list_elem_of_singleton in Hk'. subst k.
      rewrite Forall_forall in Hlt. specialize (Hlt _ Hk). lia.
Qed.

(** Pixel index builder: every entry is a position of [pixelInfo], and no
    entry occurs twice. *)
Lemma buildIndex_bound (pixelInfo : list bool) :
  Forall (fun sparseIndex => sparseIndex < length pixelInfo) (buildIndex 0 pixelInfo []).
Proof. apply (buildIndex_inv pixelInfo 0 []); constructor. Qed.

Lemma buildIndex_NoDup (pixelInfo : list bool) : NoDup (buildIndex 0 pixelInfo []).
Proof. apply (buildIndex_inv pixelInfo 0 []); constructor. Qed.

(** When every pixel is mapped the dense index is the identity. *)
Lemma buildIndex_all_mapped (n i : nat) (index : list nat) :
  buildIndex i (replicate n true) index = index ++ seq i n.
Proof.
  revert i index. induction n as [|n IH]; intros i index; cbn.
  - rewrite app_nil_r. reflexivity.
  - rewrite IH, <- app_assoc. reflexivity.
Qed.

Lemma start_index nSamples os file pixelInfo (this : VisualMemory T) :
  denseToSparsePixelIndex (start nSamples os file pixelInfo this).1.1
  = buildIndex 0 pixelInfo [].
Proof.
  unfold start.
  cbn -[resize buildIndex unsigned N.mul N.of_nat N.to_nat Z.ltb Z.eqb].
  destruct (open_result os <? 0)%Z;
    [|destruct (negb (ftruncate_result os =? 0)%Z);
      [|destruct (mmap_result os =? 0)%Z]]; reflexivity.
Qed.

(** With every one of [n] pixels mapped, [start] builds the identity index. *)
Lemma start_index_all_mapped nSamples os file (n : nat) (this : VisualMemory T) :
  denseToSparsePixelIndex (start nSamples os file (replicate n true) this).1.1
  = seq 0 n.
Proof. rewrite start_index. apply (buildIndex_all_mapped n 0 []). Qed.

(** [start] leaves the object well formed, whatever the operating system
    answers. *)
Lemma start_wellFormed (nSamples : nat) (os : Os) (file : option (list Byte.byte))
    (pixelInfo : list bool) :
  wellFormed nSamples (start nSamples os file pixelInfo (newVisualMemory nSamples)).1.1.
Proof.
  unfold start, wellFormed.
  cbn -[resize buildIndex unsigned N.mul N.of_nat N.to_nat Z.ltb Z.eqb].
  destruct (open_result os <? 0)%Z;
    [|destruct (negb (ftruncate_result os =? 0)%Z);
      [|destruct (mmap_result os =? 0)%Z]];
    cbn -[resize buildIndex];
    rewrite ?length_replicate, ?length_map, !length_resize;
    (split; [reflexivity|split; [reflexivity|apply buildIndex_bound]]).
Qed.

End StartFacts.

Section StartFailures.
Context {T : Type} {arith : Arith T}.
Implicit Types (os : Os) (file : option (list Byte.byte)) (pixelInfo : list bool).

(** [open] fails: reported, the file is untouched, no thread is created and
    the recall buffer is all zero. *)
Lemma start_open_fails nSamples os file pixelInfo :
  (open_result os < 0)%Z ->
  let r := start (T := T) nSamples os file pixelInfo (newVisualMemory nSamples) in
  learnThread r.1.1 = false /\ r.1.2 = file /\
  last r.2 = Some (PError "vismem: Error opening mapping file") /\
  recallBuffer r.1.1 = replicate (length pixelInfo) (ofZ 0).
Proof.
  intros Hfd. unfold start.
  replace (open_result os <? 0)%Z with true by (symmetry; apply Z.ltb_lt; exact Hfd).
  cbn -[resize buildIndex]. unfold resize. cbn. rewrite Nat.sub_0_r, take_nil.
  repeat split; reflexivity.
Qed.

(** [ftruncate] fails: reported, the content of the file is untouched, no
    thread is created and the recall buffer is all zero. *)
Lemma start_ftruncate_fails nSamples os file pixelInfo :
  (0 <= open_result os)%Z -> ftruncate_result os <> 0%Z ->
  let r := start (T := T) nSamples os file pixelInfo (newVisualMemory nSamples) in
  learnThread r.1.1 = false /\ r.1.2 = Some (default [] file) /\
  last r.2 = Some (PError "vismem: Error setting length of mapping file") /\
  recallBuffer r.1.1 = replicate (length pixelInfo) (ofZ 0).
Proof.
  intros Hfd Hft. unfold start.
  replace (open_result os <? 0)%Z with false by (symmetry; apply Z.ltb_ge; exact Hfd).
  replace (ftruncate_result os =? 0)%Z with false by (symmetry; apply Z.eqb_neq; exact Hft).
  cbn -[resize buildIndex]. unfold resize. cbn. rewrite Nat.sub_0_r, take_nil.
  repeat split; reflexivity.
Qed.

(** What [start] does once [open] and [ftruncate] have succeeded and the
    pointer returned by [mmap] is not null. *)
Lemma start_maps nSamples os file pixelInfo (self : VisualMemory T) :
  (0 <= open_result os)%Z -> ftruncate_result os = 0%Z -> mmap_result os <> 0%Z ->
  let cells := unsigned (N.of_nat nSamples * N.of_nat (length (buildIndex 0 pixelInfo []))) in
  let r := start nSamples os file pixelInfo self in
  learnThread r.1.1 = true /\
  mappedMemory r.1.1 = mmap_result os /\
  r.1.2 = Some (resize (N.to_nat (cells * sizeof_Cell)) Byte.x00 (default [] file)) /\
  r.2 = [LogCells (N.of_nat nSamples) (N.of_nat (length (buildIndex 0 pixelInfo []))) cells;
         LogMapped cells (mmap_result os)].
Proof.
  intros Hfd Hft Hmm. unfold start.
  replace (open_result os <? 0)%Z with false by (symmetry; apply Z.ltb_ge; exact Hfd).
  rewrite Hft.
  cbn -[resize buildIndex unsigned N.mul N.of_nat N.to_nat Z.eqb].
  replace (mmap_result os =? 0)%Z with false by (symmetry; apply Z.eqb_neq; exact Hmm).
  cbn -[resize buildIndex unsigned N.mul N.of_nat N.to_nat].
  repeat split; reflexivity.
Qed.

End StartFailures.

(** C4, as stated, fails: with a backing file of 3 bytes where one cell
    (16 bytes) is expected, [start] reports no error, resizes the file to 16
    bytes and creates the learning thread. *)
Lemma C4_counterexample :
  let r := start (T := double) 1 os_ok (Some [Byte.x01; Byte.x02; Byte.x03]) [true]
                 (newVisualMemory 1) in
  learnThread r.1.1 = true /\
  r.1.2 = Some ([Byte.x01; Byte.x02; Byte.x03] ++ replicate 13 Byte.x00) /\
  r.1.2 <> Some [Byte.x01; Byte.x02; Byte.x03] /\
  r.2 = [LogCells 1 1 1; LogMapped 1 4096].
Proof. vm_compute. repeat split; try reflexivity. discriminate. Qed.

(** C4, amended.  When the Memory Store is initialized over an existing
    backing file, whatever its size (in particular one different from
    [cellCount * sizeof(Cell)]), and [open], [ftruncate] and [mmap] succeed,
    no error is reported: the file is truncated or zero-extended to exactly
    [cellCount * 16] bytes, keeping its leading bytes, and the learning
    worker is started. *)
Theorem C4_existing_file_is_resized {T} `{Arith T} (nSamples : nat) (os : Os)
    (content : list Byte.byte) (pixelInfo : list bool) (self : VisualMemory T) :
  (0 <= open_result os)%Z -> ftruncate_result os = 0%Z -> mmap_result os <> 0%Z ->
  let cells := unsigned (N.of_nat nSamples * N.of_nat (length (buildIndex 0 pixelInfo []))) in
  let r := start nSamples os (Some content) pixelInfo self in
  learnThread r.1.1 = true /\
  (exists content',
     r.1.2 = Some content' /\
     length content' = N.to_nat (cells * 16) /\
     take (length content) content' = take (N.to_nat (cells * 16)) content /\
     Forall (fun b => b = Byte.x00) (drop (length content) content')) /\
  Forall (fun l => is_PError l = false) r.2.
Proof.
  intros Hfd Hft Hmm cells r.
  destruct (start_maps nSamples os (Some content) pixelInfo self Hfd Hft Hmm)
    as (Hth & _ & Hfile & Hlog).
  fold cells in Hfile, Hlog. fold r in Hth, Hfile, Hlog.
  split; [exact Hth|]. split.
  - eexists. split; [exact Hfile|].
    change (default [] (Some content)) with content. change sizeof_Cell with 16%N.
    set (n := N.to_nat (cells * 16)).
    split; [apply length_resize|]. unfold resize. split.
    + destruct (decide (length content <= n)) as [Hle|Hgt].
      * rewrite (take_ge content n) by exact Hle. apply take_app_length.
      * replace (n - length content) with 0 by lia.
        cbn [replicate]. rewrite app_nil_r, take_take.
        rewrite Nat.min_r by lia. reflexivity.
    + destruct (decide (length content <= n)) as [Hle|Hgt].
      * rewrite (take_ge content n) by exact Hle. rewrite drop_app_length.
        apply Forall_replicate. reflexivity.
      * rewrite drop_ge; [constructor|].
        rewrite length_app, length_take, length_replicate. lia.
  - rewrite Hlog. repeat constructor.
Qed.

Lemma C4_existing_file_is_resized_witness :
  let r := start (T := double) 1 os_ok (Some [Byte.x01; Byte.x02; Byte.x03]) [true]
                 (newVisualMemory 1) in
  learnThread r.1.1 = true /\ Forall (fun l => is_PError l = false) r.2.
Proof.
  assert (Hfd : (0 <= open_result os_ok)%Z) by (cbn; lia).
  assert (Hft : ftruncate_result os_ok = 0%Z) by reflexivity.
  assert (Hmm : mmap_result os_ok <> 0%Z) by (cbn; lia).
  pose proof (C4_existing_file_is_resized (T := double) 1 os_ok
                [Byte.x01; Byte.x02; Byte.x03] [true] (newVisualMemory 1)
                Hfd Hft Hmm) as (Hth & _ & Hlog).
  split; [exact Hth|exact Hlog].
Defined.

(** C5: the failure of [mmap] is not detected.  [mmap] reports failure by
    returning [MAP_FAILED], which is not the null pointer that line 155
    tests for: [start] then reports nothing, keeps [MAP_FAILED] as the
    address of the cells and creates the learning thread. *)
Theorem C5_mmap_failure_not_detected {T} `{Arith T} (nSamples : nat) (fd : Z)
    (file : option (list Byte.byte)) (pixelInfo : list bool) (self : VisualMemory T) :
  (0 <= fd)%Z ->
  let os := {| open_result := fd; ftruncate_result := 0; mmap_result := MAP_FAILED |} in
  let r := start nSamples os file pixelInfo self in
  learnThread r.1.1 = true /\
  mappedMemory r.1.1 = MAP_FAILED /\
  Forall (fun l => is_PError l = false) r.2.
Proof.
  intros Hfd os r.
  destruct (start_maps nSamples os file pixelInfo self Hfd eq_refl)
    as (Hth & Hptr & _ & Hlog); [discriminate|].
  fold r in Hth, Hptr, Hlog.
  split; [exact Hth|]. split; [exact Hptr|].
  rewrite Hlog. repeat constructor.
Qed.

Lemma C5_mmap_failure_not_detected_witness :
  (0 <= 3)%Z /\
  learnThread (start (T := double) 1 os_map_failed None [true] (newVisualMemory 1)).1.1
  = true.
Proof.
  assert (Hfd : (0 <= 3)%Z) by lia.
  split; [exact Hfd|].
  exact (proj1 (C5_mmap_failure_not_detected (T := double) 1 3 None [true]
                  (newVisualMemory 1) Hfd)).
Defined.

(** ** [debug]: the snapshot encoder *)

(** With [cellMax] zero, [cellScale] is an infinity and every channel value
    saturates, whatever the field holds: a zero field gives [0 * inf = NaN],
    which [std::min(255.5, NaN)] turns into 255.5. *)
Lemma channel_zero_cellMax (sgn : bool) (field : double) :
  channel field (ofZ 1 / S754_zero sgn)%A = Ok 255%Z.
Proof.
  destruct sgn, field as [s|s| |s m e]; try destruct s; vm_compute; reflexivity.
Qed.

Lemma cellMaxOf_zero_grid (n : nat) :
  cellMaxOf (replicate (S n) zeroCell) = Ok (S754_zero false).
Proof.
  unfold cellMaxOf. cbn [replicate lookup list_lookup vget mbind result_bind].
  rewrite length_cons, length_replicate, Nat.sub_succ, Nat.sub_0_r.
  assert (G : forall l, Forall (fun c => 1 <= c <= n) l ->
    forEach (fun c cellMax =>
               cell ← vget MemoryBuffer (zeroCell :: replicate n zeroCell) c;
               Ok (std_max cellMax (longTerm cell))) l (S754_zero false)
    = Ok (S754_zero false)).
  { induction l as [|c l IH]; intros Hl; [reflexivity|].
    inversion Hl as [|? ? Hc Hl']; subst. cbn [forEach].
    unfold vget. destruct c as [|c]; [lia|].
    change ((zeroCell :: replicate n zeroCell) !! S c)
      with (replicate n zeroCell !! c).
    rewrite lookup_replicate_2 by lia. cbn. apply IH, Hl'. }
  apply G. apply Forall_forall. intros c Hc. apply elem_of_seq in Hc. lia.
Qed.

(** C6: on a memory grid whose [cellMax] is zero the encoder does not
    produce an all-zero image.  No fault occurs and no NaN is converted,
    but every channel of every cell is written as 255: shown for every
    field value and either sign of the zero, and on the all-zero grid of
    two sample slots and three mapped pixels. *)
Theorem C6_zero_grid_snapshot_is_saturated :
  (forall (sgn : bool) (field : double),
     channel field (ofZ 1 / S754_zero sgn)%A = Ok 255%Z) /\
  cellMaxOf (replicate 6 zeroCell) = Ok (S754_zero false) /\
  debug sampler2
        (start 2 os_ok None [true; true; true] (newVisualMemory 2)).1.1
        (replicate 6 zeroCell)
  = Ok (4, 2, replicate 18 255%Z ++ replicate 6 0%Z).
Proof.
  split; [exact channel_zero_cellMax|].
  split; [apply (cellMaxOf_zero_grid 5)|].
  vm_compute. reflexivity.
Qed.

(** ** The loops of a sweep *)

Section SweepFacts.
Context {T : Type} {arith : Arith T}.
Local Open Scope arith_scope.
Implicit Types (self : VisualMemory T) (w : Worker T) (buffer : list T).

Lemma set_recallBuffer_twice buffer1 buffer2 self :
  set_recallBuffer buffer2 (set_recallBuffer buffer1 self) = set_recallBuffer buffer2 self.
Proof. reflexivity. Qed.

Lemma set_recallBuffer_same self : set_recallBuffer (recallBuffer self) self = self.
Proof. destruct self; reflexivity. Qed.

(** One turn of the publish loop. *)
Lemma publishLed_ok scale denseIndex sparseIndex a self :
  denseToSparsePixelIndex self !! denseIndex = Some sparseIndex ->
  recallAccumulator self !! denseIndex = Some a ->
  sparseIndex < length (recallBuffer self) ->
  publishLed scale denseIndex self
  = Ok (set_recallBuffer (<[sparseIndex := a * scale - ofZ 1]> (recallBuffer self)) self).
Proof.
  intros Hd Ha Hs. unfold publishLed, vget, vset. rewrite Hd, Ha. cbn.
  rewrite decide_True by exact Hs. reflexivity.
Qed.

(** The publish loop over the dense indices [l]: it runs to its end, changes
    nothing but the recall buffer, leaves every entry that is not the sparse
    index of a pixel of [l] as it was, and sets the entry of every pixel of
    [l] to [a * scale - 1] for the accumulator entry [a] of a pixel with the
    same sparse index. *)
Lemma publish_loop scale (l : list nat) self :
  Forall (fun i => i < length (denseToSparsePixelIndex self)
                   /\ i < length (recallAccumulator self)) l ->
  Forall (fun sparseIndex => sparseIndex < length (recallBuffer self))
         (denseToSparsePixelIndex self) ->
  exists buffer,
    forEach (publishLed scale) l self = Ok (set_recallBuffer buffer self) /\
    length buffer = length (recallBuffer self) /\
    (forall j, (forall i, i ∈ l -> denseToSparsePixelIndex self !! i <> Some j) ->
               buffer !! j = recallBuffer self !! j) /\
    (forall i sparseIndex,
        i ∈ l -> denseToSparsePixelIndex self !! i = Some sparseIndex ->
        exists i' a, i' ∈ l /\
          denseToSparsePixelIndex self !! i' = Some sparseIndex /\
          recallAccumulator self !! i' = Some a /\
          buffer !! sparseIndex = Some (a * scale - ofZ 1)).
Proof.
  revert self. induction l as [|h l IH]; intros self Hl Hb.
  - exists (recallBuffer self). cbn. rewrite set_recallBuffer_same.
    split; [reflexivity|]. split; [reflexivity|]. split; [reflexivity|].
    intros i sp Hi. inversion Hi.
  - inversion Hl as [|? ? [Hh1 Hh2] Hl']; subst.
    destruct (lookup_lt_is_Some_2 _ _ Hh1) as [sp Hsp].
    destruct (lookup_lt_is_Some_2 _ _ Hh2) as [a Ha].
    assert (Hspb : sp < length (recallBuffer self)).
    { rewrite Forall_forall in Hb. apply Hb. eapply list_elem_of_lookup_2, Hsp. }
    cbn [forEach]. rewrite (publishLed_ok _ _ _ _ _ Hsp Ha Hspb). cbn.
    set (buffer1 := <[sp := a * scale - ofZ 1]> (recallBuffer self)).
    destruct (IH (set_recallBuffer buffer1 self)) as (buffer & Hrun & Hlen & Hout & Hin).
    { exact Hl'. }
    { cbn. unfold buffer1. rewrite length_insert. exact Hb. }
    cbn in Hlen, Hout, Hin. unfold buffer1 in Hlen. rewrite length_insert in Hlen.
    exists buffer. rewrite Hrun, set_recallBuffer_twice.
    split; [reflexivity|]. split; [exact Hlen|]. split.
    + intros j Hj. rewrite Hout.
      * unfold buffer1. apply list_lookup_insert_ne. intros ->.
        apply (Hj h); [left|exact Hsp].
      * intros i Hi. apply Hj. right. exact Hi.
    + intros i spi Hi Hspi.
      destruct (decide (Exists (fun i' => denseToSparsePixelIndex self !! i' = Some spi) l))
        as [Hex|Hnex].
      * apply Exists_exists in Hex as (i2 & Hi2 & Hspi2).
        destruct (Hin i2 spi Hi2 Hspi2) as (i' & a' & Hi' & H1 & H2 & H3).
        exists i', a'. split; [right; exact Hi'|]. split; [exact H1|]. split; assumption.
      * apply elem_of_cons in Hi as [->|Hi].
        -- rewrite Hsp in Hspi. injection Hspi as <-.
           exists h, a. split; [left|]. split; [exact Hsp|]. split; [exact Ha|].
           rewrite Hout.
           ++ unfold buffer1. apply list_lookup_insert_eq. exact Hspb.
           ++ intros i2 Hi2 Hspi2. apply Hnex, Exists_exists. exists i2. split; assumption.
        -- exfalso. apply Hnex, Exists_exists. exists i. split; assumption.
Qed.

(** The publish step of a well-formed object (lines 277-281). *)
Lemma publish_spec (nSamples : nat) w :
  wellFormed nSamples (self w) ->
  let denseSize := length (denseToSparsePixelIndex (self w)) in
  let scale := recallScale denseSize (recallTotal w) in
  exists buffer,
    publish denseSize w = Ok (set_recallBuffer buffer (self w)) /\
    length buffer = length (recallBuffer (self w)) /\
    (forall j, j ∉ denseToSparsePixelIndex (self w) ->
               buffer !! j = recallBuffer (self w) !! j) /\
    (forall i sparseIndex,
        denseToSparsePixelIndex (self w) !! i = Some sparseIndex ->
        exists i' a,
          denseToSparsePixelIndex (self w) !! i' = Some sparseIndex /\
          recallAccumulator (self w) !! i' = Some a /\
          buffer !! sparseIndex = Some (a * scale - ofZ 1)).
Proof.
  intros (_ & Hacc & Hb) denseSize scale. unfold publish. fold denseSize scale.
  destruct (publish_loop scale (seq 0 denseSize) (self w)) as (buffer & Hrun & Hlen & Hout & Hin).
  { apply Forall_forall. intros i Hi. apply elem_of_seq in Hi.
    unfold denseSize in Hi. rewrite Hacc. lia. }
  { exact Hb. }
  exists buffer. split; [exact Hrun|]. split; [exact Hlen|]. split.
  - intros j Hj. apply Hout. intros i _ Hi. apply Hj.
    eapply list_elem_of_lookup_2, Hi.
  - intros i sp Hi.
    destruct (Hin i sp) as (i' & a & _ & H1 & H2 & H3).
    + apply elem_of_seq. apply lookup_lt_Some in Hi. unfold denseSize. lia.
    + exact Hi.
    + exists i', a. split; [exact H1|]. split; assumption.
Qed.

(** *** The learning loops *)

(** One turn of the loop over [denseIndex] touches the cells, the
    accumulator and [recallTotal], nothing else. *)
Lemma learnLed_frame sampleIndex denseSize m (l : Z) frame denseIndex w w' :
  learnLed sampleIndex denseSize m l frame denseIndex w = Ok w' ->
  learnFlags (self w') = learnFlags (self w) /\
  recallBuffer (self w') = recallBuffer (self w) /\
  denseToSparsePixelIndex (self w') = denseToSparsePixelIndex (self w) /\
  length (recallAccumulator (self w')) = length (recallAccumulator (self w)) /\
  length (memoryBuffer w') = length (memoryBuffer w).
Proof.
  unfold learnLed, vget.
  destruct (denseToSparsePixelIndex (self w) !! denseIndex) as [sp|]; [|discriminate].
  cbn. destruct (memoryBuffer w !! _) as [state|]; [|discriminate].
  cbn. destruct (recallAccumulator (self w) !! sp) as [a|]; [|discriminate].
  cbn. intros [= <-]. cbn. rewrite !length_insert. repeat split; reflexivity.
Qed.

Lemma learnLeds_frame sampleIndex denseSize m (l : Z) frame (leds : list nat) w w' :
  forEach (learnLed sampleIndex denseSize m l frame) leds w = Ok w' ->
  learnFlags (self w') = learnFlags (self w) /\
  recallBuffer (self w') = recallBuffer (self w) /\
  denseToSparsePixelIndex (self w') = denseToSparsePixelIndex (self w) /\
  length (recallAccumulator (self w')) = length (recallAccumulator (self w)) /\
  length (memoryBuffer w') = length (memoryBuffer w).
Proof.
  revert w. induction leds as [|h leds IH]; intros w.
  - cbn. intros [= <-]. repeat split; reflexivity.
  - cbn [forEach].
    destruct (learnLed sampleIndex denseSize m l frame h w) as [w1|e] eqn:E1;
      [|discriminate].
    cbn. intros Hrest.
    destruct (learnLed_frame _ _ _ _ _ _ _ _ E1) as (F1 & F2 & F3 & F4 & F5).
    destruct (IH _ Hrest) as (G1 & G2 & G3 & G4 & G5).
    repeat split; congruence.
Qed.

(** One turn of the loop over [sampleIndex] stores the outcome of the gate
    in the flag of its slot. *)
Lemma learnSlot_frame denseSize sampleIndex slot w w' :
  learnSlot denseSize sampleIndex slot w = Ok w' ->
  sampleIndex < length (learnFlags (self w)) /\
  learnFlags (self w')
  = <[sampleIndex := isLearning (motion slot) (uniform slot)]> (learnFlags (self w)) /\
  recallBuffer (self w') = recallBuffer (self w) /\
  denseToSparsePixelIndex (self w') = denseToSparsePixelIndex (self w) /\
  length (recallAccumulator (self w')) = length (recallAccumulator (self w)) /\
  length (memoryBuffer w') = length (memoryBuffer w).
Proof.
  unfold learnSlot, vset.
  destruct (decide (sampleIndex < length (learnFlags (self w)))) as [Hlt|]; [|discriminate].
  cbn. destruct (isLearning (motion slot) (uniform slot)); cbn.
  - destruct (delayed slot) as [frame|].
    + intros Hrun. apply learnLeds_frame in Hrun as (F1 & F2 & F3 & F4 & F5).
      cbn in F1, F2, F3, F4, F5. repeat split; assumption.
    + intros [= <-]. cbn. repeat split; try reflexivity. exact Hlt.
  - intros [= <-]. cbn. repeat split; try reflexivity. exact Hlt.
Qed.

(** After the loop over the slots, the flag of every slot tells whether the
    slot passed the gate. *)
Lemma learnSlots_flags denseSize (slots : list (SlotInput T)) sampleIndex w w' :
  learnSlots denseSize sampleIndex slots w = Ok w' ->
  length (learnFlags (self w')) = length (learnFlags (self w)) /\
  (forall j, j < sampleIndex -> learnFlags (self w') !! j = learnFlags (self w) !! j) /\
  (forall i slot, slots !! i = Some slot ->
     learnFlags (self w') !! (sampleIndex + i)%nat
     = Some (isLearning (motion slot) (uniform slot))) /\
  recallBuffer (self w') = recallBuffer (self w) /\
  denseToSparsePixelIndex (self w') = denseToSparsePixelIndex (self w) /\
  length (recallAccumulator (self w')) = length (recallAccumulator (self w)).
Proof.
  revert sampleIndex w. induction slots as [|slot slots IH]; intros k w.
  - cbn. intros [= <-]. repeat split; try reflexivity. intros i slot Hi. inversion Hi.
  - cbn [learnSlots].
    destruct (learnSlot denseSize k slot w) as [w1|e] eqn:E1; [|discriminate].
    cbn. intros Hrest.
    destruct (learnSlot_frame _ _ _ _ _ E1) as (Hk & F1 & F2 & F3 & F4 & _).
    destruct (IH _ _ Hrest) as (G0 & G1 & G2 & G3 & G4 & G5).
    rewrite F1 in G0, G1. rewrite length_insert in G0.
    split; [exact G0|]. split; [|split; [|repeat split; congruence]].
    + intros j Hj. rewrite G1 by lia. apply list_lookup_insert_ne. lia.
    + intros [|i] slot' Hi.
      * injection Hi as <-. rewrite Nat.add_0_r, G1 by lia.
        apply list_lookup_insert_eq. exact Hk.
      * replace (k + S i)%nat with (S k + i)%nat by lia. apply G2. exact Hi.
Qed.


(** The publish loop leaves the learn flags alone. *)
Lemma publish_flags denseSize w self' :
  publish denseSize w = Ok self' -> learnFlags self' = learnFlags (self w).
Proof.
  unfold publish. generalize (recallScale denseSize (recallTotal w)) as scale.
  generalize (seq 0 denseSize) as l. generalize (self w) as self0.
  intros self0 l scale. revert self0. induction l as [|h l IH]; intros self0.
  - cbn. intros [= <-]. reflexivity.
  - cbn [forEach]. destruct (publishLed scale h self0) as [self1|e] eqn:E1; [|discriminate].
    cbn. intros Hrest. rewrite (IH _ Hrest).
    revert E1. unfold publishLed, vget, vset.
    destruct (denseToSparsePixelIndex self0 !! h) as [sp|]; [|discriminate].
    cbn. destruct (recallAccumulator self0 !! h) as [a|]; [|discriminate].
    cbn. destruct (decide _); [|discriminate]. cbn. intros [= <-]. reflexivity.
Qed.

(** A completed sweep leaves in every flag the outcome of the gate of its
    slot. *)
Lemma sweep_flags (slots : list (SlotInput T)) state self' memory' i slot :
  sweep slots state = Ok (self', memory') ->
  slots !! i = Some slot ->
  learnFlags self' !! i = Some (isLearning (motion slot) (uniform slot)).
Proof.
  destruct state as [self0 memory]. unfold sweep.
  destruct (learnSlots _ 0 slots _) as [w|e] eqn:E1; [|discriminate].
  cbn. destruct (publish _ w) as [self1|e] eqn:E2; [|discriminate].
  cbn. intros [= <- _] Hi.
  rewrite (publish_flags _ _ _ E2).
  destruct (learnSlots_flags _ _ _ _ _ E1) as (_ & _ & Hflags & _).
  apply (Hflags i slot Hi).
Qed.


End SweepFacts.

(** ** Sweeps over exact arithmetic *)


Lemma recallScale_zero_total (denseSize : nat) (total : Q) :
  (total == 0)%Q -> recallScale denseSize total = 0%Q.
Proof.
  intros Ht. unfold recallScale. arithQ.
  rewrite (proj2 (Qeq_bool_iff total 0) Ht). reflexivity.
Qed.




(** C9.  A slot whose motion is at least [kMotionThreshold] passes the gate
    for every draw [u] of [[0,1)], and every sweep that completes leaves its
    learn flag set. *)
Theorem C9_motion_above_threshold_learns (slots : list (SlotInput Q))
    (state : VisualMemory Q * list (Cell Q)) (self' : VisualMemory Q)
    (memory' : list (Cell Q)) (i : nat) (slot : SlotInput Q) :
  slots !! i = Some slot ->
  (kMotionThreshold <= motion slot)%Q ->
  (0 <= uniform slot)%Q -> (uniform slot < 1)%Q ->
  isLearning (motion slot) (uniform slot) = true /\
  (sweep slots state = Ok (self', memory') -> learnFlags self' !! i = Some true).
Proof.
  intros Hi Hm Hu0 Hu1.
  pose proof (isLearning_above_threshold _ _ Hm Hu0 Hu1) as Hgate.
  split; [exact Hgate|]. intros Hrun.
  rewrite (sweep_flags slots state self' memory' i slot Hrun Hi). rewrite Hgate. reflexivity.
Qed.

Lemma C9_motion_above_threshold_learns_witness :
  let this := (start 1 os_ok None [true; true] (newVisualMemory 1)).1.1 in
  exists self' memory',
    sweep [slotQ 200 (1 # 2)] (this, [zeroCellQ; zeroCellQ]) = Ok (self', memory') /\
    learnFlags self' !! 0 = Some true.
Proof.
  intros this.
  destruct (sweep [slotQ 200 (1 # 2)] (this, [zeroCellQ; zeroCellQ]))
    as [[self' memory']|e] eqn:E.
  - exists self', memory'. split; [reflexivity|].
    apply (C9_motion_above_threshold_learns [slotQ 200 (1 # 2)]
             (this, [zeroCellQ; zeroCellQ]) self' memory' 0 (slotQ 200 (1 # 2))).
    + reflexivity.
    + cbn. discriminate.
    + cbn. discriminate.
    + reflexivity.
    + exact E.
  - exfalso. vm_compute in E. discriminate E.
Defined.



(** In binary64 the value written under the fallback scale, for a zero
    [recallTotal] of either sign, is exactly -1 whenever the accumulator
    entry is finite. *)
Lemma publish_value_binary64 (denseSize : nat) (sgn : bool) (a : double) :
  finite a = true ->
  (a * recallScale denseSize (S754_zero sgn) - ofZ 1)%A = (ofZ (-1) : double).
Proof.
  destruct sgn, a as [s|s| |s m e]; try discriminate; intros _; destruct s; reflexivity.
Qed.

(** ** The accumulator is indexed by sparse index *)


(** C2: with the second of two pixels mapped and the first not, [start]
    builds the dense index [[1]] and an accumulator of one entry, and the
    first learning slot of the first sweep writes [recallAccumulator[1]]. *)
Theorem C2_accumulator_write_out_of_range :
  let this := (start 1 os_ok None [false; true] (newVisualMemory 1)).1.1 in
  denseToSparsePixelIndex this = [1] /\
  length (recallAccumulator this) = 1 /\
  sweep [slotD (ofZ 200) (ofZ 1 / ofZ 2)%A] (this, [zeroCell])
  = Fault (OutOfRange RecallAccumulator 1 1).
Proof. vm_compute. repeat split; reflexivity. Qed.

(** C1: with the middle one of three pixels unmapped, the sweep of a
    learning slot does not reach a published recall buffer: the
    accumulation for the second dense pixel is written at its sparse index
    2, outside the two entries that the publish step reads. *)
Theorem C1_no_zero_mean_with_unmapped_pixel :
  let this := (start 1 os_ok None [true; false; true] (newVisualMemory 1)).1.1 in
  denseToSparsePixelIndex this = [0; 2] /\
  length (recallAccumulator this) = 2 /\
  sweep [slotQ 200 (1 # 2)] (this, [zeroCellQ; zeroCellQ])
  = Fault (OutOfRange RecallAccumulator 2 2) /\
  recallAfter (sweep [slotQ 200 (1 # 2)] (this, [zeroCellQ; zeroCellQ])) = None.
Proof. vm_compute. repeat split; reflexivity. Qed.

(** ** The zero mean of the recall buffer when every pixel is mapped *)

Lemma Qsum_insert (l : list Q) (i : nat) (a v : Q) :
  l !! i = Some a -> (Qsum (<[i := (a + v)%Q]> l) == Qsum l + v)%Q.
Proof.
  revert i. induction l as [|x l IH]; intros [|i] Hi; try discriminate.
  - injection Hi as ->.
    change (a + v + Qsum l == a + Qsum l + v)%Q. ring.
  - change (x + Qsum (<[i := (a + v)%Q]> l) == x + Qsum l + v)%Q.
    rewrite (IH i Hi). ring.
Qed.

Lemma Qsum_zeros {A} (l : list A) : (Qsum (map (fun _ => 0%Q) l) == 0)%Q.
Proof.
  induction l as [|x l IH]; [reflexivity|].
  change (0 + Qsum (map (fun _ => 0%Q) l) == 0)%Q. rewrite IH. ring.
Qed.

Lemma Qsum_scaled (scale : Q) (l : list Q) :
  (Qsum (map (fun a => a * scale - 1)%Q l)
   == scale * Qsum l - inject_Z (Z.of_nat (length l)))%Q.
Proof.
  induction l as [|x l IH].
  - change (0 == scale * 0 - 0)%Q. ring.
  - change ((x * scale - 1) + Qsum (map (fun a => (a * scale - 1)%Q) l)
            == scale * (x + Qsum l) - inject_Z (Z.of_nat (S (length l))))%Q.
    rewrite IH, Nat2Z.inj_succ, <- Z.add_1_r, inject_Z_plus.
    change (inject_Z 1) with 1%Q. ring.
Qed.

(** Every accumulation goes to the accumulator and to [recallTotal] alike. *)
Lemma learnLed_balance sampleIndex denseSize (m : Q) (l : Z) frame denseIndex
    (w w' : Worker Q) :
  learnLed sampleIndex denseSize m l frame denseIndex w = Ok w' ->
  (Qsum (recallAccumulator (self w')) + recallTotal w
   == Qsum (recallAccumulator (self w)) + recallTotal w')%Q.
Proof.
  unfold learnLed, vget.
  destruct (denseToSparsePixelIndex (self w) !! denseIndex) as [sp|]; [|discriminate].
  cbn. destruct (memoryBuffer w !! _) as [state|]; [|discriminate].
  cbn. destruct (recallAccumulator (self w) !! sp) as [a|] eqn:Ha; [|discriminate].
  cbn. intros [= <-]. cbn. rewrite (Qsum_insert _ _ _ _ Ha). ring.
Qed.

Lemma learnLeds_balance sampleIndex denseSize (m : Q) (l : Z) frame (leds : list nat)
    (w w' : Worker Q) :
  forEach (learnLed sampleIndex denseSize m l frame) leds w = Ok w' ->
  (Qsum (recallAccumulator (self w')) + recallTotal w
   == Qsum (recallAccumulator (self w)) + recallTotal w')%Q.
Proof.
  revert w. induction leds as [|h leds IH]; intros w.
  - cbn. intros [= <-]. ring.
  - cbn [forEach].
    destruct (learnLed sampleIndex denseSize m l frame h w) as [w1|e] eqn:E1;
      [|discriminate].
    cbn. intros Hrest. pose proof (learnLed_balance _ _ _ _ _ _ _ _ E1).
    pose proof (IH _ Hrest). lra.
Qed.

Lemma learnSlots_balance denseSize (slots : list (SlotInput Q)) sampleIndex
    (w w' : Worker Q) :
  learnSlots denseSize sampleIndex slots w = Ok w' ->
  (Qsum (recallAccumulator (self w')) + recallTotal w
   == Qsum (recallAccumulator (self w)) + recallTotal w')%Q.
Proof.
  revert sampleIndex w. induction slots as [|slot slots IH]; intros k w.
  - cbn. intros [= <-]. ring.
  - cbn [learnSlots].
    destruct (learnSlot denseSize k slot w) as [w1|e] eqn:E1; [|discriminate].
    cbn. intros Hrest. pose proof (IH _ _ Hrest) as Htail.
    assert (Hhead : (Qsum (recallAccumulator (self w1)) + recallTotal w
                     == Qsum (recallAccumulator (self w)) + recallTotal w1)%Q).
    { revert E1. unfold learnSlot, vset.
      destruct (decide _); [|discriminate]. cbn [mbind result_bind].
      destruct (isLearning (motion slot) (uniform slot)); cbn [negb].
      - destruct (delayed slot) as [frame|].
        + intros Hrun. apply learnLeds_balance in Hrun. exact Hrun.
        + intros [= <-]. cbn [self recallTotal recallAccumulator set_learnFlags]. ring.
      - intros [= <-]. cbn [self recallTotal recallAccumulator set_learnFlags]. ring. }
    lra.
Qed.

(** When every pixel is mapped (the dense index is the identity) and the
    slots of a sweep have left a nonzero [recallTotal], the publish step
    leaves a recall buffer whose sum, hence whose mean, over the dense pixels
    is 0. *)
Lemma publish_mean_zero_all_mapped (nSamples n : nat) (slots : list (SlotInput Q))
    (this : VisualMemory Q) (memory : list (Cell Q)) (w : Worker Q)
    (self' : VisualMemory Q) :
  wellFormed nSamples this ->
  denseToSparsePixelIndex this = seq 0 n ->
  learnSlots n 0 slots
    {| self := set_recallAccumulator (map (fun _ => ofZ 0) (recallAccumulator this)) this;
       memoryBuffer := memory; recallTotal := ofZ 0 |} = Ok w ->
  ~ (recallTotal w == 0)%Q ->
  publish n w = Ok self' ->
  (recallSum self' == 0)%Q /\ (recallSum self' / inject_Z (Z.of_nat n) == 0)%Q.
Proof.
  intros (Hflags & Hacc & Hbuf) Hid Hrun Htotal Hpub.
  pose proof (learnSlots_balance _ _ _ _ _ Hrun) as Hbal. cbn in Hbal.
  rewrite Qsum_zeros in Hbal.
  destruct (learnSlots_flags _ _ _ _ _ Hrun) as (Hfl & _ & _ & Hrb & Hd & Hal).
  cbn in Hfl, Hrb, Hd, Hal. rewrite length_map in Hal.
  assert (Hn : length (recallAccumulator (self w)) = n).
  { rewrite Hal, Hacc, Hid. apply length_seq. }
  assert (Hwf : wellFormed nSamples (self w)).
  { unfold wellFormed. rewrite Hfl, Hd, Hrb, Hal. repeat split; assumption. }
  destruct (publish_spec nSamples w Hwf) as (buffer & Hpub' & _ & _ & Hin).
  rewrite Hd, Hid, length_seq in Hpub', Hin. rewrite Hpub in Hpub'.
  injection Hpub' as ->.
  assert (Hsum : (recallSum (set_recallBuffer buffer (self w)) == 0)%Q).
  { unfold recallSum. cbn. rewrite Hd, Hid.
    assert (E : map (fun sp => default 0%Q (buffer !! sp)) (seq 0 n)
                = map (fun a => (a * recallScale n (recallTotal w) - 1)%Q)
                      (recallAccumulator (self w))).
    { apply list_eq. intros i. rewrite !list_lookup_fmap.
      destruct (decide (i < n)) as [Hi|Hi].
      - rewrite lookup_seq_lt by exact Hi.
        destruct (lookup_lt_is_Some_2 (recallAccumulator (self w)) i) as [a Ha]; [lia|].
        rewrite Ha. cbn.
        destruct (Hin i i) as (i' & a' & Hi' & Ha' & Hv).
        { apply lookup_seq_lt. exact Hi. }
        apply lookup_seq in Hi' as [Hi' _]. cbn in Hi'. subst i'.
        rewrite Ha in Ha'. injection Ha' as <-. rewrite Hv. reflexivity.
      - rewrite lookup_seq_ge by lia.
        rewrite (lookup_ge_None_2 (recallAccumulator (self w))) by lia. reflexivity. }
    rewrite E, Qsum_scaled, Hn. unfold recallScale. arithQ.
    destruct (Qeq_bool (recallTotal w) 0) eqn:Ez.
    - exfalso. apply Htotal. apply Qeq_bool_iff. exact Ez.
    - cbn [negb].
      change (inject_Z 0) with 0%Q in Hbal.
      assert (Es : (Qsum (recallAccumulator (self w)) == recallTotal w)%Q) by lra.
      rewrite Es. field. exact Htotal. }
  split; [exact Hsum|]. rewrite Hsum. reflexivity.
Qed.

(** ** A sweep completes when every pixel is mapped *)

Section Completion.
Context {T : Type} {arith : Arith T}.

Lemma learnLeds_complete (n sampleIndex : nat) (m : T) (l : Z) (frame : Frame T)
    (leds : list nat) (w : Worker T) :
  denseToSparsePixelIndex (self w) = seq 0 n ->
  length (recallAccumulator (self w)) = n ->
  Forall (fun i => (i < n /\ sampleIndex * n + i < length (memoryBuffer w))%nat) leds ->
  exists w', forEach (learnLed sampleIndex n m l frame) leds w = Ok w'.
Proof.
  revert w. induction leds as [|i leds IH]; intros w Hid Hacc Hleds.
  - exists w. reflexivity.
  - apply Forall_cons in Hleds as [[Hi Hc] Hleds'].
    assert (Hhead : exists w1,
      learnLed sampleIndex n m l frame i w = Ok w1 /\
      denseToSparsePixelIndex (self w1) = seq 0 n /\
      length (recallAccumulator (self w1)) = n /\
      length (memoryBuffer w1) = length (memoryBuffer w)).
    { unfold learnLed, vget.
      rewrite Hid, (lookup_seq_lt 0 n i Hi). cbn [mbind result_bind].
      destruct (lookup_lt_is_Some_2 _ _ Hc) as [state ->]. cbn [mbind result_bind].
      destruct (lookup_lt_is_Some_2 (recallAccumulator (self w)) (0 + i)) as [a ->];
        [lia|].
      cbn [mbind result_bind]. eexists. split; [reflexivity|].
      cbn. rewrite !length_insert. repeat split; assumption. }
    destruct Hhead as (w1 & Hw1 & Hid1 & Hacc1 & Hmem1).
    cbn [forEach]. rewrite Hw1. cbn [mbind result_bind].
    apply IH; [exact Hid1|exact Hacc1|]. rewrite Hmem1. exact Hleds'.
Qed.

Lemma learnSlots_complete (n : nat) (slots : list (SlotInput T)) (sampleIndex : nat)
    (w : Worker T) :
  denseToSparsePixelIndex (self w) = seq 0 n ->
  length (recallAccumulator (self w)) = n ->
  ((sampleIndex + length slots) * n <= length (memoryBuffer w))%nat ->
  (sampleIndex + length slots <= length (learnFlags (self w)))%nat ->
  exists w', learnSlots n sampleIndex slots w = Ok w'.
Proof.
  revert sampleIndex w. induction slots as [|slot slots IH]; intros k w Hid Hacc Hmem Hfl.
  - exists w. reflexivity.
  - cbn [length] in Hmem, Hfl. cbn [learnSlots].
    assert (Hslot : exists w1, learnSlot n k slot w = Ok w1).
    { unfold learnSlot, vset. rewrite decide_True by lia. cbn [mbind result_bind].
      destruct (negb (isLearning (motion slot) (uniform slot))); [eexists; reflexivity|].
      destruct (delayed slot) as [frame|]; [|eexists; reflexivity].
      apply learnLeds_complete.
      - exact Hid.
      - exact Hacc.
      - apply Forall_forall. intros i Hi. apply elem_of_seq in Hi. cbn. nia. }
    destruct Hslot as [w1 Hw1]. rewrite Hw1. cbn [mbind result_bind].
    destruct (learnSlot_frame _ _ _ _ _ Hw1) as (_ & F1 & _ & F3 & F4 & F5).
    apply IH.
    + rewrite F3. exact Hid.
    + rewrite F4. exact Hacc.
    + rewrite F5. lia.
    + rewrite F1, length_insert. lia.
Qed.

(** With every pixel mapped, one flag per slot and one cell per slot and
    pixel, a sweep runs to its end. *)
Lemma sweep_completes_all_mapped (n : nat) (slots : list (SlotInput T))
    (this : VisualMemory T) (memory : list (Cell T)) :
  wellFormed (length slots) this ->
  denseToSparsePixelIndex this = seq 0 n ->
  (length slots * n <= length memory)%nat ->
  exists self' memory', sweep slots (this, memory) = Ok (self', memory').
Proof.
  intros (Hflags & Hacc & Hbuf) Hid Hmem. unfold sweep.
  rewrite Hid, length_seq.
  set (w0 := {| self := set_recallAccumulator
                          (map (fun _ => ofZ 0) (recallAccumulator this)) this;
                memoryBuffer := memory; recallTotal := ofZ 0 |}).
  destruct (learnSlots_complete n slots 0 w0) as [w Hw].
  { exact Hid. }
  { cbn. rewrite length_map, Hacc, Hid. apply length_seq. }
  { cbn. lia. }
  { cbn. lia. }
  rewrite Hw. cbn [mbind result_bind].
  destruct (learnSlots_flags _ _ _ _ _ Hw) as (Hfl & _ & _ & Hrb & Hd & Hal).
  cbn in Hfl, Hrb, Hd, Hal. rewrite length_map in Hal.
  destruct (publish_spec (length slots) w) as (buffer & Hpub & _).
  { unfold wellFormed. rewrite Hfl, Hd, Hrb, Hal. repeat split; assumption. }
  rewrite Hd, Hid, length_seq in Hpub. rewrite Hpub. cbn.
  eexists _, _. reflexivity.
Qed.

End Completion.

(** The gate in binary64 at the threshold itself: with motion 100 it is
    passed by the draw 0 and by the largest double below 1. *)
Lemma isLearning_binary64_at_threshold :
  isLearning (ofZ 100 : double) (S754_zero false) = true /\
  isLearning (ofZ 100 : double) (S754_finite false 9007199254740991 (-53)) = true.
Proof. vm_compute. split; reflexivity. Qed.

(** The first sweep over two mapped pixels of different brightness: the
    recall buffer it publishes is [63/65, -63/65]. *)
Example first_sweep_two_tone :
  let this := (start 1 os_ok None [true; true] (newVisualMemory 1)).1.1 in
  let slot := {| motion := 200%Q; luma := 255; uniform := (1 # 2)%Q;
                 delayed := Some twoToneQ |} in
  exists self' memory',
    sweep [slot] (this, [zeroCellQ; zeroCellQ]) = Ok (self', memory') /\
    Forall2 Qeq (recallBuffer self') [(63 # 65)%Q; (- 63 # 65)%Q] /\
    (recallSum self' == 0)%Q.
Proof.
  intros this slot.
  destruct (sweep [slot] (this, [zeroCellQ; zeroCellQ])) as [[self' memory']|e] eqn:E;
    vm_compute in E; [|discriminate E].
  injection E as <- <-. eexists _, _. split; [reflexivity|]. split.
  - constructor; [reflexivity|]. constructor; [reflexivity|constructor].
  - reflexivity.
Qed.

(** * Further properties of [start] *)

Lemma buildIndex_acc (pixelInfo : list bool) (i : nat) (index : list nat) :
  buildIndex i pixelInfo index = index ++ buildIndex i pixelInfo [].
Proof.
  revert i index. induction pixelInfo as [|b rest IH]; intros i index.
  - cbn. rewrite app_nil_r. reflexivity.
  - cbn [buildIndex]. rewrite (IH (S i) (if b then index ++ [i] else index)).
    rewrite (IH (S i) (if b then [] ++ [i] else [])).
    destruct b; [rewrite <- app_assoc|]; reflexivity.
Qed.

Lemma buildIndex_cons (b : bool) (rest : list bool) (i : nat) :
  buildIndex i (b :: rest) [] = (if b then [i] else []) ++ buildIndex (S i) rest [].
Proof. cbn [buildIndex]. rewrite buildIndex_acc. destruct b; reflexivity. Qed.

Lemma buildIndex_elem (pixelInfo : list bool) (i k : nat) :
  k ∈ buildIndex i pixelInfo [] <-> (i <= k)%nat /\ pixelInfo !! (k - i)%nat = Some true.
Proof.
  revert i. induction pixelInfo as [|b rest IH]; intros i.
  - cbn. split; [intros H; inversion H|intros [_ H]; discriminate].
  - rewrite buildIndex_cons, elem_of_app, IH. split.
    + intros [Hk|[Hle Hk]].
      * destruct b; [|inversion Hk]. apply list_elem_of_singleton in Hk as ->.
        split; [lia|]. rewrite Nat.sub_diag. reflexivity.
      * split; [lia|]. replace (k - i)%nat with (S (k - S i)) by lia. exact Hk.
    + intros [Hle Hk]. destruct (decide (k = i)) as [->|Hne].
      * left. rewrite Nat.sub_diag in Hk. injection Hk as ->.
        apply list_elem_of_singleton. reflexivity.
      * right. split; [lia|].
        replace (k - i)%nat with (S (k - S i)) in Hk by lia. exact Hk.
Qed.

Lemma buildIndex_sorted (pixelInfo : list bool) (i : nat) :
  StronglySorted lt (buildIndex i pixelInfo []).
Proof.
  revert i. induction pixelInfo as [|b rest IH]; intros i; [constructor|].
  rewrite buildIndex_cons. destruct b; [|apply IH].
  constructor; [apply IH|]. apply Forall_forall. intros k Hk.
  apply buildIndex_elem in Hk as [Hk _]. lia.
Qed.

Lemma buildIndex_length (pixelInfo : list bool) (i : nat) :
  length (buildIndex i pixelInfo []) = length (filter (fun b => b = true) pixelInfo).
Proof.
  revert i. induction pixelInfo as [|b rest IH]; intros i; [reflexivity|].
  rewrite buildIndex_cons, length_app, IH, filter_cons.
  destruct b; [rewrite decide_True by reflexivity|rewrite decide_False by discriminate];
    reflexivity.
Qed.

(** X1.  The pixel index builder of [start] (lines 114-120): the dense index
    holds exactly the positions of the mapped pixels, in strictly increasing
    order, so its length is the number of mapped pixels. *)
Theorem X1_dense_index_lists_mapped_pixels (pixelInfo : list bool) :
  (forall k, k ∈ buildIndex 0 pixelInfo [] <-> pixelInfo !! k = Some true) /\
  StronglySorted lt (buildIndex 0 pixelInfo []) /\
  length (buildIndex 0 pixelInfo []) = length (filter (fun b => b = true) pixelInfo).
Proof.
  split; [|split].
  - intros k. rewrite buildIndex_elem, Nat.sub_0_r. split; [intros [_ H]; exact H|].
    intros H. split; [lia|exact H].
  - apply buildIndex_sorted.
  - apply buildIndex_length.
Qed.

Section StartMore.
Context {T : Type} {arith : Arith T}.
Implicit Types (os : Os) (file : option (list Byte.byte)) (pixelInfo : list bool).

Lemma lookup_resize_lt {A} (n : nat) (z : A) (l : list A) (i : nat) :
  (i < n)%nat -> (i < length l)%nat -> resize n z l !! i = l !! i.
Proof.
  intros Hn Hl. unfold resize. rewrite lookup_app_l by (rewrite length_take; lia).
  apply lookup_take_lt. exact Hn.
Qed.

(** What [start] leaves in the object before it touches the file, whatever
    the operating system answers afterwards. *)
Lemma start_buffers nSamples os file pixelInfo (this : VisualMemory T) :
  let r := (start nSamples os file pixelInfo this).1.1 in
  denseToSparsePixelIndex r = buildIndex 0 pixelInfo [] /\
  recallBuffer r = resize (length pixelInfo) (ofZ 0) (recallBuffer this) /\
  recallAccumulator r
  = resize (length (buildIndex 0 pixelInfo [])) (ofZ 0) (recallAccumulator this) /\
  recallTolerance r = replicate (length (buildIndex 0 pixelInfo [])) (ofZ 1) /\
  learnFlags r = learnFlags this.
Proof.
  assert (E : forall l : list T,
    map (fun _ => ofZ 1) (resize (length (buildIndex 0 pixelInfo [])) (ofZ 0) l)
    = replicate (length (buildIndex 0 pixelInfo [])) (ofZ 1)).
  { intros l. apply list_eq. intros i. rewrite list_lookup_fmap.
    destruct (decide (i < length (buildIndex 0 pixelInfo []))%nat) as [Hi|Hi].
    - rewrite lookup_replicate_2 by exact Hi.
      destruct (lookup_lt_is_Some_2 (resize (length (buildIndex 0 pixelInfo [])) (ofZ 0) l) i)
        as [x ->]; [rewrite length_resize; exact Hi|reflexivity].
    - rewrite (lookup_ge_None_2 (resize _ _ _)) by (rewrite length_resize; lia).
      symmetry. apply lookup_replicate_None. lia. }
  unfold start.
  cbn -[resize buildIndex unsigned N.mul N.of_nat N.to_nat Z.ltb Z.eqb].
  destruct (open_result os <? 0)%Z;
    [|destruct (negb (ftruncate_result os =? 0)%Z);
      [|destruct (mmap_result os =? 0)%Z]];
    cbn -[resize buildIndex]; rewrite E; repeat split; reflexivity.
Qed.

End StartMore.

(** X2.  Lines 124-135, whatever the operating system answers and whatever
    the object held before: [start] gives the recall buffer one entry per
    pixel and the accumulator one entry per mapped pixel, sets every entry
    of [recallTolerance] to 1, and keeps the recall values already stored
    below the new size (a restart does not clear them). *)
Theorem X2_start_sizes_the_buffers {T} `{Arith T} (nSamples : nat) (os : Os)
    (file : option (list Byte.byte)) (pixelInfo : list bool) (this : VisualMemory T) :
  let r := (start nSamples os file pixelInfo this).1.1 in
  let mapped := length (filter (fun b => b = true) pixelInfo) in
  length (recallBuffer r) = length pixelInfo /\
  length (recallAccumulator r) = mapped /\
  recallTolerance r = replicate mapped (ofZ 1) /\
  length (denseToSparsePixelIndex r) = mapped /\
  (forall i, (i < length pixelInfo)%nat -> (i < length (recallBuffer this))%nat ->
     recallBuffer r !! i = recallBuffer this !! i) /\
  (forall i, (length (recallBuffer this) <= i < length pixelInfo)%nat ->
     recallBuffer r !! i = Some (ofZ 0)).
Proof.
  intros r mapped.
  destruct (start_buffers nSamples os file pixelInfo this) as (Hd & Hb & Ha & Ht & _).
  fold r in Hd, Hb, Ha, Ht. unfold mapped.
  rewrite <- (buildIndex_length pixelInfo 0).
  rewrite Hd, Hb, Ha, Ht, !length_resize.
  repeat split; try reflexivity.
  - intros i Hi Hl. apply lookup_resize_lt; assumption.
  - intros i [Hl Hi]. unfold resize.
    rewrite lookup_app_r by (rewrite length_take; lia).
    apply lookup_replicate_2. rewrite length_take. lia.
Qed.

Section StartOutcomes.
Context {T : Type} {arith : Arith T}.
Implicit Types (os : Os) (file : option (list Byte.byte)) (pixelInfo : list bool).

Lemma start_open_fails_any nSamples os file pixelInfo (this : VisualMemory T) :
  (open_result os < 0)%Z ->
  let r := start nSamples os file pixelInfo this in
  let mapped := N.of_nat (length (buildIndex 0 pixelInfo [])) in
  r.1.2 = file /\
  r.2 = [LogCells (N.of_nat nSamples) mapped (unsigned (N.of_nat nSamples * mapped));
         PError "vismem: Error opening mapping file"] /\
  learnThread r.1.1 = learnThread this /\
  mappedMemory r.1.1 = mappedMemory this /\
  mappedMemorySize r.1.1 = mappedMemorySize this.
Proof.
  intros Hfd. unfold start.
  replace (open_result os <? 0)%Z with true by (symmetry; apply Z.ltb_lt; exact Hfd).
  cbn -[resize buildIndex unsigned N.mul N.of_nat]. repeat split; reflexivity.
Qed.

Lemma start_ftruncate_fails_any nSamples os file pixelInfo (this : VisualMemory T) :
  (0 <= open_result os)%Z -> ftruncate_result os <> 0%Z ->
  let r := start nSamples os file pixelInfo this in
  let mapped := N.of_nat (length (buildIndex 0 pixelInfo [])) in
  r.1.2 = Some (default [] file) /\
  r.2 = [LogCells (N.of_nat nSamples) mapped (unsigned (N.of_nat nSamples * mapped));
         PError "vismem: Error setting length of mapping file"] /\
  learnThread r.1.1 = learnThread this /\
  mappedMemory r.1.1 = mappedMemory this /\
  mappedMemorySize r.1.1 = mappedMemorySize this.
Proof.
  intros Hfd Hft. unfold start.
  replace (open_result os <? 0)%Z with false by (symmetry; apply Z.ltb_ge; exact Hfd).
  replace (ftruncate_result os =? 0)%Z with false by (symmetry; apply Z.eqb_neq; exact Hft).
  cbn -[resize buildIndex unsigned N.mul N.of_nat]. repeat split; reflexivity.
Qed.

End StartOutcomes.

(** X3.  Lines 139-143: when [open] fails, [start] reports it as its last
    word on [stderr], leaves the backing file as it was (it is not created),
    and changes neither the mapping nor the state of the learning thread. *)
Theorem X3_open_failure_is_reported {T} `{Arith T} (nSamples : nat) (os : Os)
    (file : option (list Byte.byte)) (pixelInfo : list bool) (this : VisualMemory T) :
  (open_result os < 0)%Z ->
  let r := start nSamples os file pixelInfo this in
  r.1.2 = file /\
  last r.2 = Some (PError "vismem: Error opening mapping file") /\
  length (filter (fun l => is_PError l = true) r.2) = 1%nat /\
  learnThread r.1.1 = learnThread this /\
  mappedMemory r.1.1 = mappedMemory this /\
  mappedMemorySize r.1.1 = mappedMemorySize this.
Proof.
  intros Hfd r.
  destruct (start_open_fails_any nSamples os file pixelInfo this Hfd)
    as (Hf & Hl & Ht & Hm & Hs).
  fold r in Hf, Hl, Ht, Hm, Hs. rewrite Hl. repeat split; assumption || reflexivity.
Qed.

Lemma X3_open_failure_is_reported_witness :
  let os := {| open_result := -1; ftruncate_result := 0; mmap_result := 4096 |} in
  let r := start (T := double) 2 os None [true; false] (newVisualMemory 2) in
  r.1.2 = None /\ learnThread r.1.1 = false.
Proof.
  intros os r.
  assert (Hfd : (open_result os < 0)%Z) by reflexivity.
  destruct (X3_open_failure_is_reported (T := double) 2 os None [true; false]
              (newVisualMemory 2) Hfd) as (Hf & _ & _ & Ht & _).
  split; [exact Hf|exact Ht].
Defined.

(** X4.  Lines 145-149: when [ftruncate] fails after a successful [open],
    [start] reports it, changes neither the mapping nor the state of the
    learning thread, and leaves the content of the file untouched; a file
    that did not exist has been created, empty, by [open]. *)
Theorem X4_resize_failure_is_reported {T} `{Arith T} (nSamples : nat) (os : Os)
    (file : option (list Byte.byte)) (pixelInfo : list bool) (this : VisualMemory T) :
  (0 <= open_result os)%Z -> ftruncate_result os <> 0%Z ->
  let r := start nSamples os file pixelInfo this in
  r.1.2 = Some (default [] file) /\
  last r.2 = Some (PError "vismem: Error setting length of mapping file") /\
  length (filter (fun l => is_PError l = true) r.2) = 1%nat /\
  learnThread r.1.1 = learnThread this /\
  mappedMemory r.1.1 = mappedMemory this /\
  mappedMemorySize r.1.1 = mappedMemorySize this.
Proof.
  intros Hfd Hft r.
  destruct (start_ftruncate_fails_any nSamples os file pixelInfo this Hfd Hft)
    as (Hf & Hl & Ht & Hm & Hs).
  fold r in Hf, Hl, Ht, Hm, Hs. rewrite Hl. repeat split; assumption || reflexivity.
Qed.

Lemma X4_resize_failure_is_reported_witness :
  let os := {| open_result := 3; ftruncate_result := -1; mmap_result := 4096 |} in
  let r := start (T := double) 2 os None [true; false] (newVisualMemory 2) in
  r.1.2 = Some [] /\ learnThread r.1.1 = false.
Proof.
  intros os r.
  assert (Hfd : (0 <= open_result os)%Z) by (cbn; lia).
  assert (Hft : ftruncate_result os <> 0%Z) by discriminate.
  destruct (X4_resize_failure_is_reported (T := double) 2 os None [true; false]
              (newVisualMemory 2) Hfd Hft) as (Hf & _ & _ & Ht & _).
  split; [exact Hf|exact Ht].
Defined.

(** X5.  Lines 139-166, warm and cold start: when the three calls succeed
    and the product of the sample count and the number of mapped pixels fits
    [unsigned], the mapping holds exactly that many cells; a backing file
    that already has [cells * sizeof(Cell)] bytes is left byte for byte as it
    was, and a missing file is created as that many zero bytes. *)
Theorem X5_warm_start_keeps_the_file {T} `{Arith T} (nSamples : nat) (os : Os)
    (file : option (list Byte.byte)) (pixelInfo : list bool) (this : VisualMemory T) :
  (0 <= open_result os)%Z -> ftruncate_result os = 0%Z -> mmap_result os <> 0%Z ->
  let mapped := length (filter (fun b => b = true) pixelInfo) in
  (N.of_nat (nSamples * mapped) < 2 ^ 32)%N ->
  let r := start nSamples os file pixelInfo this in
  mappedMemorySize r.1.1 = N.of_nat (nSamples * mapped) /\
  learnThread r.1.1 = true /\
  (forall content, file = Some content ->
     length content = (nSamples * mapped * 16)%nat -> r.1.2 = Some content) /\
  (file = None -> r.1.2 = Some (replicate (nSamples * mapped * 16) Byte.x00)).
Proof.
  intros Hfd Hft Hmm mapped Hfit r.
  pose proof (start_maps nSamples os file pixelInfo this Hfd Hft Hmm) as Hmaps.
  cbv zeta in Hmaps. fold r in Hmaps. destruct Hmaps as (Hth & _ & Hfile & _).
  assert (Hcells : unsigned (N.of_nat nSamples * N.of_nat (length (buildIndex 0 pixelInfo [])))
                   = N.of_nat (nSamples * mapped)).
  { rewrite (buildIndex_length pixelInfo 0). fold mapped.
    unfold unsigned. rewrite <- Nat2N.inj_mul. apply N.mod_small. exact Hfit. }
  rewrite Hcells in Hfile.
  assert (Hbytes : N.to_nat (N.of_nat (nSamples * mapped) * sizeof_Cell)
                   = (nSamples * mapped * 16)%nat).
  { change sizeof_Cell with (N.of_nat 16). rewrite <- Nat2N.inj_mul. apply Nat2N.id. }
  rewrite Hbytes in Hfile.
  split; [|split; [exact Hth|split]].
  - unfold r, start.
    replace (open_result os <? 0)%Z with false by (symmetry; apply Z.ltb_ge; exact Hfd).
    rewrite Hft.
    cbn -[resize buildIndex unsigned N.mul N.of_nat N.to_nat Z.eqb].
    replace (mmap_result os =? 0)%Z with false by (symmetry; apply Z.eqb_neq; exact Hmm).
    cbn -[resize buildIndex unsigned N.mul N.of_nat N.to_nat]. exact Hcells.
  - intros content -> Hlen. rewrite Hfile. f_equal.
    change (default [] (Some content)) with content. unfold resize.
    rewrite take_ge by lia. rewrite Hlen, Nat.sub_diag. apply app_nil_r.
  - intros ->. rewrite Hfile. f_equal. unfold resize.
    change (default [] None) with (@nil Byte.byte).
    rewrite take_nil. cbn [length app]. rewrite Nat.sub_0_r. reflexivity.
Qed.

Lemma X5_warm_start_keeps_the_file_witness :
  let content := replicate 16 Byte.xff in
  (start (T := double) 1 os_ok (Some content) [false; true] (newVisualMemory 1)).1.2
  = Some content.
Proof.
  intros content.
  assert (Hfd : (0 <= open_result os_ok)%Z) by (cbn; lia).
  assert (Hft : ftruncate_result os_ok = 0%Z) by reflexivity.
  assert (Hmm : mmap_result os_ok <> 0%Z) by discriminate.
  assert (Hfit : (N.of_nat (1 * length (filter (fun b => b = true) [false; true])) < 2 ^ 32)%N)
    by reflexivity.
  destruct (X5_warm_start_keeps_the_file (T := double) 1 os_ok (Some content)
              [false; true] (newVisualMemory 1) Hfd Hft Hmm Hfit) as (_ & _ & Hwarm & _).
  apply (Hwarm content); reflexivity.
Defined.

(** * Further properties of the cell update *)

Lemma std_min_one_Q (x : Q) :
  (0 <= x)%Q -> (0 <= std_min (ofZ 1) x)%Q /\ (std_min (ofZ 1) x <= 1)%Q /\
                ((1 <= x)%Q -> std_min (ofZ 1) x = 1%Q) /\
                (std_min (ofZ 1) x <= x)%Q.
Proof.
  intros Hx. unfold std_min. arithQ. change (inject_Z 1) with 1%Q.
  destruct (Qle_bool 1 x) eqn:E; cbn [negb].
  - apply Qle_bool_iff in E.
    split; [lra|]. split; [lra|]. split; [reflexivity|exact E].
  - assert (Hlt : (x < 1)%Q).
    { apply Qnot_le_lt. intros Hle. apply Qle_bool_iff in Hle. congruence. }
    split; [lra|]. split; [lra|]. split; [intros Hge; lra|lra].
Qed.

Lemma lumaSq_range (l : Z) :
  (0 <= l <= 255)%Z ->
  (0 <= inject_Z (l * l) / inject_Z 65025)%Q /\ (inject_Z (l * l) / inject_Z 65025 <= 1)%Q.
Proof.
  intros Hl.
  assert (H0 : (0 <= inject_Z (l * l))%Q).
  { change 0%Q with (inject_Z 0). rewrite <- Zle_Qle. nia. }
  assert (H1 : (inject_Z (l * l) <= 65025)%Q).
  { change 65025%Q with (inject_Z 65025). rewrite <- Zle_Qle. nia. }
  change (inject_Z 65025) with 65025%Q. split.
  - apply Qle_shift_div_l; lra.
  - apply Qle_shift_div_r; lra.
Qed.

Lemma reinforcement_range (l : Z) (r g b : Q) :
  (0 <= l <= 255)%Z -> (0 <= r)%Q -> (0 <= g)%Q -> (0 <= b)%Q ->
  (0 <= reinforcementFunction l (r, g, b))%Q /\ (reinforcementFunction l (r, g, b) <= 1)%Q.
Proof.
  intros Hl Hr Hg Hb. unfold reinforcementFunction.
  destruct (std_min_one_Q r Hr) as (Hr0 & Hr1 & _).
  destruct (std_min_one_Q g Hg) as (Hg0 & Hg1 & _).
  destruct (std_min_one_Q b Hb) as (Hb0 & Hb1 & _).
  destruct (lumaSq_range l Hl) as (HL0 & HL1).
  generalize dependent (std_min (ofZ 1) r). intros r' Hr0 Hr1.
  generalize dependent (std_min (ofZ 1) g). intros g' Hg0 Hg1.
  generalize dependent (std_min (ofZ 1) b). intros b' Hb0 Hb1.
  arithQ. generalize dependent (inject_Z (l * l) / inject_Z 65025)%Q. intros L HL0 HL1.
  change (inject_Z 3) with 3%Q.
  assert (Hrr : (0 <= r' * r' <= 1)%Q) by nra.
  assert (Hgg : (0 <= g' * g' <= 1)%Q) by nra.
  assert (Hbb : (0 <= b' * b' <= 1)%Q) by nra.
  assert (Hp0 : (0 <= (r' * r' + g' * g' + b' * b') / 3)%Q)
    by (apply Qle_shift_div_l; lra).
  assert (Hp1 : ((r' * r' + g' * g' + b' * b') / 3 <= 1)%Q)
    by (apply Qle_shift_div_r; lra).
  generalize dependent ((r' * r' + g' * g' + b' * b') / 3)%Q. intros P HP0 HP1.
  split; nra.
Qed.

(** X6.  [reinforcementFunction] (lines 186-196), over exact arithmetic: for
    a luminance byte and colour channels that are not negative the
    reinforcement lies between 0 and 1; it is 0 for luminance 0, and it is 1
    for luminance 255 with every channel at 1 or above, channels above 1
    counting as 1. *)
Theorem X6_reinforcement_is_between_0_and_1 (l : Z) (r g b : Q) :
  (0 <= l <= 255)%Z -> (0 <= r)%Q -> (0 <= g)%Q -> (0 <= b)%Q ->
  (0 <= reinforcementFunction l (r, g, b))%Q /\
  (reinforcementFunction l (r, g, b) <= 1)%Q /\
  (reinforcementFunction 0 (r, g, b) == 0)%Q /\
  ((1 <= r)%Q -> (1 <= g)%Q -> (1 <= b)%Q ->
   (reinforcementFunction 255 (r, g, b) == 1)%Q).
Proof.
  intros Hl Hr Hg Hb.
  destruct (reinforcement_range l r g b Hl Hr Hg Hb) as [H0 H1].
  split; [exact H0|]. split; [exact H1|]. split.
  - unfold reinforcementFunction. arithQ.
    change (inject_Z (0 * 0)) with 0%Q. change (inject_Z 65025) with 65025%Q.
    change (inject_Z 3) with 3%Q. field.
  - intros Hr1 Hg1 Hb1. unfold reinforcementFunction.
    rewrite (proj1 (proj2 (proj2 (std_min_one_Q r Hr))) Hr1).
    rewrite (proj1 (proj2 (proj2 (std_min_one_Q g Hg))) Hg1).
    rewrite (proj1 (proj2 (proj2 (std_min_one_Q b Hb))) Hb1).
    reflexivity.
Qed.

Lemma X6_reinforcement_is_between_0_and_1_witness :
  (0 <= reinforcementFunction 128 (1 # 2, 3, 0)%Q)%Q /\
  (reinforcementFunction 128 (1 # 2, 3, 0)%Q <= 1)%Q.
Proof.
  assert (Hl : (0 <= 128 <= 255)%Z) by lia.
  assert (Hr : (0 <= 1 # 2)%Q) by discriminate.
  assert (Hg : (0 <= 3)%Q) by discriminate.
  assert (Hb : (0 <= 0)%Q) by discriminate.
  destruct (X6_reinforcement_is_between_0_and_1 128 (1 # 2) 3 0 Hl Hr Hg Hb)
    as (H0 & H1 & _).
  split; [exact H0|exact H1].
Defined.

Lemma learnCell_inBox (c : Cell Q) (x : Q) :
  (0 <= x)%Q -> (x <= 1)%Q -> inBox c -> inBox (learnCell c x).
Proof.
  intros Hx0 Hx1 [[Hs0 Hs1] [Hl0 Hl1]]. unfold inBox, learnCell.
  cbn [shortTerm longTerm]. unfold shortTermUpdate, longTermUpdate.
  rewrite kShortTermPermeability_Q, kLongTermPermeability_Q. arithQ.
  set (s := (shortTerm c - shortTerm c * (1 # 10) + x)%Q).
  assert (Hs : (0 <= s)%Q /\ (s <= 10)%Q) by (unfold s; split; lra).
  destruct Hs as [Hs0' Hs1']. clearbody s.
  generalize dependent (longTerm c). intros l Hl0 Hl1.
  split; [split; assumption|].
  set (d := (s - l)%Q).
  assert (Hd : (- 10 <= d)%Q /\ (d <= 10)%Q) by (unfold d; split; lra).
  assert (Hdd : (0 <= d * d)%Q /\ (d * d <= 100)%Q) by nra.
  set (k := (d * d * (1 # 10000))%Q).
  assert (Hk : (0 <= k)%Q /\ (k <= 1 # 100)%Q) by (unfold k; split; lra).
  assert (E : (l + d * d * d * (1 # 10000) == l + d * k)%Q) by (unfold k; ring).
  rewrite E. clearbody k.
  assert (El : (l == s - d)%Q) by (unfold d; ring).
  clearbody d. destruct Hk as [Hk0 Hk1]. destruct Hd as [Hd0 Hd1].
  destruct (Qlt_le_dec d 0) as [Hn|Hp].
  - assert (d <= d * k)%Q by nra. assert (d * k <= 0)%Q by nra. split; lra.
  - assert (0 <= d * k)%Q by nra. assert (d * k <= d)%Q by nra. split; lra.
Qed.

(** X7.  The update of one cell (lines 253-263), over exact arithmetic: for
    a reinforcement between 0 and 1, a cell whose short-term and long-term
    memories both lie in [[0, 10]] is sent to such a cell, and the long-term
    memory moves toward the new short-term memory without passing it. *)
Theorem X7_cell_update_stays_in_the_box (c : Cell Q) (x : Q) :
  (0 <= x)%Q -> (x <= 1)%Q -> inBox c ->
  inBox (learnCell c x) /\
  (Qabs (shortTerm (learnCell c x) - longTerm (learnCell c x))
   <= Qabs (shortTerm (learnCell c x) - longTerm c))%Q.
Proof.
  intros Hx0 Hx1 Hc. split; [apply learnCell_inBox; assumption|].
  destruct Hc as [[Hs0 Hs1] [Hl0 Hl1]].
  unfold learnCell. cbn [shortTerm longTerm].
  set (s := shortTermUpdate (shortTerm c) x).
  assert (Hs : (0 <= s)%Q /\ (s <= 10)%Q).
  { unfold s, shortTermUpdate. rewrite kShortTermPermeability_Q. arithQ. split; lra. }
  rewrite longTermUpdate_gap.
  refine (proj1 (cubic_contracts (s - longTerm c) _)).
  destruct Hs as [Hs0' Hs1'].
  assert (Hd : ((s - longTerm c) * (s - longTerm c) <= 100)%Q) by nra.
  lra.
Qed.

Lemma X7_cell_update_stays_in_the_box_witness :
  inBox (learnCell zeroCellQ 1%Q).
Proof.
  assert (Hx0 : (0 <= 1)%Q) by discriminate.
  assert (Hx1 : (1 <= 1)%Q) by discriminate.
  assert (Hc : inBox zeroCellQ) by (repeat split; discriminate).
  exact (proj1 (X7_cell_update_stays_in_the_box zeroCellQ 1%Q Hx0 Hx1 Hc)).
Defined.

(** * Further properties of the sweeps *)

Section SweepMore.
Context {T : Type} {arith : Arith T}.
Local Open Scope arith_scope.

Lemma learnLed_fixed sampleIndex denseSize (m : T) (l : Z) frame denseIndex
    (w w' : Worker T) :
  learnLed sampleIndex denseSize m l frame denseIndex w = Ok w' ->
  fixedMembers (self w') = fixedMembers (self w).
Proof.
  unfold learnLed, vget.
  destruct (denseToSparsePixelIndex (self w) !! denseIndex) as [sp|]; [|discriminate].
  cbn. destruct (memoryBuffer w !! _) as [state|]; [|discriminate].
  cbn. destruct (recallAccumulator (self w) !! sp) as [a|]; [|discriminate].
  cbn. intros [= <-]. reflexivity.
Qed.

Lemma learnLeds_fixed sampleIndex denseSize (m : T) (l : Z) frame (leds : list nat)
    (w w' : Worker T) :
  forEach (learnLed sampleIndex denseSize m l frame) leds w = Ok w' ->
  fixedMembers (self w') = fixedMembers (self w).
Proof.
  revert w. induction leds as [|h leds IH]; intros w.
  - cbn. intros [= <-]. reflexivity.
  - cbn [forEach].
    destruct (learnLed sampleIndex denseSize m l frame h w) as [w1|e] eqn:E1;
      [|discriminate].
    cbn. intros Hrest. rewrite (IH _ Hrest). eapply learnLed_fixed, E1.
Qed.

Lemma learnSlots_fixed denseSize (slots : list (SlotInput T)) sampleIndex
    (w w' : Worker T) :
  learnSlots denseSize sampleIndex slots w = Ok w' ->
  fixedMembers (self w') = fixedMembers (self w) /\
  length (memoryBuffer w') = length (memoryBuffer w).
Proof.
  revert sampleIndex w. induction slots as [|slot slots IH]; intros k w.
  - cbn. intros [= <-]. split; reflexivity.
  - cbn [learnSlots].
    destruct (learnSlot denseSize k slot w) as [w1|e] eqn:E1; [|discriminate].
    cbn. intros Hrest. destruct (IH _ _ Hrest) as [Hf Hm]. rewrite Hf, Hm.
    destruct (learnSlot_frame _ _ _ _ _ E1) as (_ & _ & _ & _ & _ & Hm1).
    split; [|exact Hm1].
    revert E1. unfold learnSlot, vset.
    destruct (decide _); [|discriminate]. cbn [mbind result_bind].
    destruct (negb (isLearning (motion slot) (uniform slot))).
    + intros [= <-]. reflexivity.
    + destruct (delayed slot) as [frame|].
      * intros Hrun. apply learnLeds_fixed in Hrun. exact Hrun.
      * intros [= <-]. reflexivity.
Qed.

Lemma publishLed_frame scale denseIndex (this self' : VisualMemory T) :
  publishLed scale denseIndex this = Ok self' ->
  fixedMembers self' = fixedMembers this /\
  learnFlags self' = learnFlags this /\
  recallAccumulator self' = recallAccumulator this /\
  length (recallBuffer self') = length (recallBuffer this) /\
  (forall j, j ∉ denseToSparsePixelIndex this ->
     recallBuffer self' !! j = recallBuffer this !! j).
Proof.
  unfold publishLed, vget, vset.
  destruct (denseToSparsePixelIndex this !! denseIndex) as [sp|] eqn:Hsp; [|discriminate].
  cbn. destruct (recallAccumulator this !! denseIndex) as [a|]; [|discriminate].
  cbn. destruct (decide _); [|discriminate]. cbn. intros [= <-]. cbn.
  rewrite length_insert. repeat split; try reflexivity.
  intros j Hj. apply list_lookup_insert_ne. intros ->.
  apply Hj. eapply list_elem_of_lookup_2, Hsp.
Qed.

Lemma publish_frame denseSize (w : Worker T) (self' : VisualMemory T) :
  publish denseSize w = Ok self' ->
  fixedMembers self' = fixedMembers (self w) /\
  learnFlags self' = learnFlags (self w) /\
  recallAccumulator self' = recallAccumulator (self w) /\
  length (recallBuffer self') = length (recallBuffer (self w)) /\
  (forall j, j ∉ denseToSparsePixelIndex (self w) ->
     recallBuffer self' !! j = recallBuffer (self w) !! j).
Proof.
  unfold publish. generalize (recallScale denseSize (recallTotal w)) as scale.
  generalize (seq 0 denseSize) as l. generalize (self w) as this.
  intros this l scale. revert this. induction l as [|h l IH]; intros this.
  - cbn. intros [= <-]. repeat split; reflexivity.
  - cbn [forEach]. destruct (publishLed scale h this) as [self1|e] eqn:E1; [|discriminate].
    cbn. intros Hrest.
    destruct (publishLed_frame _ _ _ _ E1) as (F1 & F2 & F3 & F4 & F5).
    destruct (IH _ Hrest) as (G1 & G2 & G3 & G4 & G5).
    assert (Hd : denseToSparsePixelIndex self1 = denseToSparsePixelIndex this).
    { unfold fixedMembers in F1. congruence. }
    repeat split; try congruence.
    intros j Hj. rewrite G5 by (rewrite Hd; exact Hj). apply F5, Hj.
Qed.

(** What a completed sweep leaves alone. *)
Lemma sweep_frame (slots : list (SlotInput T)) (this self' : VisualMemory T)
    (memory memory' : list (Cell T)) :
  sweep slots (this, memory) = Ok (self', memory') ->
  fixedMembers self' = fixedMembers this /\
  length (learnFlags self') = length (learnFlags this) /\
  length (recallBuffer self') = length (recallBuffer this) /\
  length (recallAccumulator self') = length (recallAccumulator this) /\
  length memory' = length memory /\
  (forall j, j ∉ denseToSparsePixelIndex this ->
     recallBuffer self' !! j = recallBuffer this !! j).
Proof.
  unfold sweep.
  destruct (learnSlots _ 0 slots _) as [w|e] eqn:E1; [|discriminate].
  cbn. destruct (publish _ w) as [self1|e] eqn:E2; [|discriminate].
  cbn. intros [= <- <-].
  destruct (learnSlots_flags _ _ _ _ _ E1) as (Hfl & _ & _ & Hrb & Hd & Hal).
  destruct (learnSlots_fixed _ _ _ _ _ E1) as (Hfx & Hm).
  destruct (publish_frame _ _ _ E2) as (G1 & G2 & G3 & G4 & G5).
  cbn in Hfl, Hrb, Hd, Hal, Hfx, Hm. rewrite length_map in Hal.
  rewrite G1, G2, G3, G4, Hfx, Hfl, Hrb, Hal, Hm.
  repeat split; try reflexivity.
  intros j Hj. rewrite G5 by (rewrite Hd; exact Hj). rewrite Hrb. reflexivity.
Qed.

Lemma fixedMembers_index (this self' : VisualMemory T) :
  fixedMembers self' = fixedMembers this ->
  denseToSparsePixelIndex self' = denseToSparsePixelIndex this.
Proof. unfold fixedMembers. congruence. Qed.

Lemma learnWorker_frame (sweeps : list (list (SlotInput T))) (this self' : VisualMemory T)
    (memory memory' : list (Cell T)) :
  learnWorker sweeps (this, memory) = Ok (self', memory') ->
  fixedMembers self' = fixedMembers this /\
  length (learnFlags self') = length (learnFlags this) /\
  length (recallBuffer self') = length (recallBuffer this) /\
  length (recallAccumulator self') = length (recallAccumulator this) /\
  length memory' = length memory /\
  (forall j, j ∉ denseToSparsePixelIndex this ->
     recallBuffer self' !! j = recallBuffer this !! j).
Proof.
  unfold learnWorker. revert this memory.
  induction sweeps as [|slots sweeps IH]; intros this memory.
  - cbn. intros [= <- <-]. repeat split; reflexivity.
  - cbn [forEach].
    destruct (sweep slots (this, memory)) as [[self1 memory1]|e] eqn:E1; [|discriminate].
    cbn. intros Hrest.
    destruct (sweep_frame _ _ _ _ _ E1) as (F1 & F2 & F3 & F4 & F5 & F6).
    destruct (IH _ _ Hrest) as (G1 & G2 & G3 & G4 & G5 & G6).
    pose proof (fixedMembers_index _ _ F1) as Hd.
    repeat split; try congruence.
    intros j Hj. rewrite G6 by (rewrite Hd; exact Hj). apply F6, Hj.
Qed.

End SweepMore.

(** X8.  The loop of [learnWorker] (lines 216-295), for any number of
    completed sweeps over any inputs: the mapping, [recallTolerance], the
    dense index and the thread are never written; no vector changes its
    length; the recall entries of unmapped pixels keep their values; and a
    well-formed object stays well formed. *)
Theorem X8_sweeps_keep_the_layout {T} `{Arith T} (nSamples : nat)
    (sweeps : list (list (SlotInput T))) (this self' : VisualMemory T)
    (memory memory' : list (Cell T)) :
  learnWorker sweeps (this, memory) = Ok (self', memory') ->
  (mappedMemory self' = mappedMemory this /\
   mappedMemorySize self' = mappedMemorySize this /\
   recallTolerance self' = recallTolerance this /\
   denseToSparsePixelIndex self' = denseToSparsePixelIndex this /\
   learnThread self' = learnThread this) /\
  (length (learnFlags self') = length (learnFlags this) /\
   length (recall self') = length (recall this) /\
   length (recallAccumulator self') = length (recallAccumulator this) /\
   length memory' = length memory) /\
  (forall j, j ∉ denseToSparsePixelIndex this -> recall self' !! j = recall this !! j) /\
  (wellFormed nSamples this -> wellFormed nSamples self').
Proof.
  intros Hrun.
  destruct (learnWorker_frame _ _ _ _ _ Hrun) as (F1 & F2 & F3 & F4 & F5 & F6).
  unfold fixedMembers in F1. injection F1 as E1 E2 E3 E4 E5.
  split; [repeat split; assumption|]. split; [repeat split; assumption|].
  split; [exact F6|].
  unfold wellFormed. rewrite F2, F3, F4, E4. trivial.
Qed.

Lemma X8_sweeps_keep_the_layout_witness :
  let this := (start 1 os_ok None [true; false] (newVisualMemory 1)).1.1 in
  exists self' memory',
    learnWorker [[slotQ 200 (1 # 2)]; [slotQ 0 (1 # 2)]] (this, [zeroCellQ])
    = Ok (self', memory') /\
    recall self' !! 1%nat = Some 0%Q /\ length memory' = 1%nat.
Proof.
  intros this.
  destruct (learnWorker [[slotQ 200 (1 # 2)]; [slotQ 0 (1 # 2)]] (this, [zeroCellQ]))
    as [[self' memory']|e] eqn:E.
  - exists self', memory'. split; [reflexivity|].
    destruct (X8_sweeps_keep_the_layout 1 _ _ _ _ _ E) as (_ & (_ & _ & _ & Hm) & Hr & _).
    split; [|exact Hm]. rewrite Hr; [reflexivity|].
    vm_compute. intros Hin. inversion Hin as [|? ? ? Hin']; inversion Hin'.
  - exfalso. vm_compute in E. discriminate E.
Defined.



Section CellFacts.
Context {T : Type} {arith : Arith T}.
Local Open Scope arith_scope.





Lemma learnLeds_cells_P (P : Cell T -> Prop) sampleIndex n (m : T) (l : Z) frame
    (leds : list nat) (w w' : Worker T) :
  (forall state sparseIndex,
     P state -> P (learnCell state (reinforcementFunction l (colors frame sparseIndex)))) ->
  forEach (learnLed sampleIndex n m l frame) leds w = Ok w' ->
  Forall P (memoryBuffer w) -> Forall P (memoryBuffer w').
Proof.
  intros Hstep. revert w. induction leds as [|h leds IH]; intros w.
  - cbn. intros [= <-]. trivial.
  - cbn [forEach].
    destruct (learnLed sampleIndex n m l frame h w) as [w1|e] eqn:E1; [|discriminate].
    cbn [mbind result_bind]. intros Hrest HP. apply (IH _ Hrest).
    revert E1. unfold learnLed, vget.
    destruct (denseToSparsePixelIndex (self w) !! h) as [sp|]; [|discriminate].
    cbn [mbind result_bind].
    destruct (memoryBuffer w !! (sampleIndex * n + h)%nat) as [st|] eqn:Hst; [|discriminate].
    cbn [mbind result_bind].
    destruct (recallAccumulator (self w) !! sp) as [acc|]; [|discriminate].
    cbn [mbind result_bind]. intros [= <-]. cbn [memoryBuffer].
    apply Forall_insert; [exact HP|]. apply Hstep.
    rewrite Forall_lookup in HP. apply (HP _ _ Hst).
Qed.

Lemma learnSlots_cells_P (P : Cell T -> Prop) n (slots : list (SlotInput T))
    sampleIndex (w w' : Worker T) :
  Forall (fun slot => forall frame, delayed slot = Some frame ->
            forall state sparseIndex, P state ->
              P (learnCell state
                   (reinforcementFunction (luma slot) (colors frame sparseIndex)))) slots ->
  learnSlots n sampleIndex slots w = Ok w' ->
  Forall P (memoryBuffer w) -> Forall P (memoryBuffer w').
Proof.
  revert sampleIndex w. induction slots as [|slot slots IH]; intros k w Hslots.
  - cbn. intros [= <-]. trivial.
  - apply Forall_cons in Hslots as [Hslot Hslots]. cbn [learnSlots].
    destruct (learnSlot n k slot w) as [w1|e] eqn:E1; [|discriminate].
    cbn [mbind result_bind]. intros Hrest HP. apply (IH _ _ Hslots Hrest).
    revert E1. unfold learnSlot, vset.
    destruct (decide _); [|discriminate]. cbn [mbind result_bind].
    destruct (negb (isLearning (motion slot) (uniform slot))).
    + intros [= <-]. exact HP.
    + destruct (delayed slot) as [frame|] eqn:Hfr.
      * intros Hrun. eapply learnLeds_cells_P in Hrun; [exact Hrun| |exact HP].
        intros state sp. apply (Hslot frame eq_refl).
      * intros [= <-]. exact HP.
Qed.

Lemma learnWorker_cells_P (P : Cell T -> Prop) (sweeps : list (list (SlotInput T)))
    (this self' : VisualMemory T) (memory memory' : list (Cell T)) :
  Forall (Forall (fun slot => forall frame, delayed slot = Some frame ->
            forall state sparseIndex, P state ->
              P (learnCell state
                   (reinforcementFunction (luma slot) (colors frame sparseIndex)))))
         sweeps ->
  learnWorker sweeps (this, memory) = Ok (self', memory') ->
  Forall P memory -> Forall P memory'.
Proof.
  unfold learnWorker. revert this memory.
  induction sweeps as [|slots sweeps IH]; intros this memory Hall.
  - cbn. intros [= <- <-]. trivial.
  - apply Forall_cons in Hall as [Hslots Hall]. cbn [forEach].
    destruct (sweep slots (this, memory)) as [[self1 memory1]|e] eqn:E1; [|discriminate].
    cbn [mbind result_bind]. intros Hrest HP. apply (IH _ _ Hall Hrest).
    revert E1. unfold sweep.
    destruct (learnSlots _ 0 slots _) as [w|e] eqn:E2; [|discriminate].
    cbn [mbind result_bind]. destruct (publish _ w) as [self2|e]; [|discriminate].
    cbn [mbind result_bind]. intros [= <- <-].
    apply (learnSlots_cells_P P _ _ _ _ _ Hslots E2). exact HP.
Qed.

End CellFacts.

(** X10.  Lines 250-263 and the two loops around them, over exact
    arithmetic: as long as every slot reads a luminance byte and delayed
    colours that are not negative, cells whose memories all lie in
    [[0, 10]] (a fresh, zero-filled backing file in particular) still do after
    any number of completed sweeps. *)
Theorem X10_cells_stay_in_the_box (sweeps : list (list (SlotInput Q)))
    (this self' : VisualMemory Q) (memory memory' : list (Cell Q)) :
  Forall (Forall slotInRange) sweeps ->
  Forall inBox memory ->
  learnWorker sweeps (this, memory) = Ok (self', memory') ->
  Forall inBox memory'.
Proof.
  intros Hin Hbox Hrun.
  apply (learnWorker_cells_P inBox sweeps this self' memory memory'); [|exact Hrun|exact Hbox].
  eapply Forall_impl; [exact Hin|]. cbn. intros slots Hslots.
  eapply Forall_impl; [exact Hslots|]. cbn.
  intros slot [Hluma Hcol] frame Hfr state sp Hst.
  specialize (Hcol frame Hfr sp). destruct (colors frame sp) as [[r g] b].
  destruct Hcol as (Hr & Hg & Hb).
  destruct (reinforcement_range (luma slot) r g b Hluma Hr Hg Hb) as [H0 H1].
  apply learnCell_inBox; assumption.
Qed.

Lemma X10_cells_stay_in_the_box_witness :
  let this := (start 1 os_ok None [true; true] (newVisualMemory 1)).1.1 in
  exists self' memory',
    learnWorker [[slotQ 200 (1 # 2)]; [slotQ 200 (1 # 3)]] (this, [zeroCellQ; zeroCellQ])
    = Ok (self', memory') /\ Forall inBox memory'.
Proof.
  intros this.
  destruct (learnWorker [[slotQ 200 (1 # 2)]; [slotQ 200 (1 # 3)]]
                        (this, [zeroCellQ; zeroCellQ]))
    as [[self' memory']|e] eqn:E.
  - exists self', memory'. split; [reflexivity|].
    assert (Hslot : forall u, slotInRange (slotQ 200 u)).
    { intros u. split; [cbn; lia|]. intros frame [= <-] sp. cbn.
      repeat split; discriminate. }
    assert (Hin : Forall (Forall slotInRange)
                         [[slotQ 200 (1 # 2)]; [slotQ 200 (1 # 3)]]).
    { repeat constructor; apply Hslot. }
    assert (Hbox : Forall inBox [zeroCellQ; zeroCellQ]).
    { repeat constructor; discriminate. }
    exact (X10_cells_stay_in_the_box _ this self' _ memory' Hin Hbox E).
  - exfalso. vm_compute in E. discriminate E.
Defined.



(** X12.  The publish step (lines 277-281) on a well-formed object whose
    dense index has no repeated entry, as [start] builds it: it completes,
    reads the accumulator at the dense index and writes
    [accumulator * scale - 1] at the matching sparse index, for every dense
    pixel, and leaves the accumulator and the flags as they were. *)
Theorem X12_publish_pairs_dense_with_sparse {T} `{Arith T} (nSamples : nat)
    (w : Worker T) :
  wellFormed nSamples (self w) ->
  NoDup (denseToSparsePixelIndex (self w)) ->
  let denseSize := length (denseToSparsePixelIndex (self w)) in
  exists self',
    publish denseSize w = Ok self' /\
    (forall denseIndex sparseIndex a,
       denseToSparsePixelIndex (self w) !! denseIndex = Some sparseIndex ->
       recallAccumulator (self w) !! denseIndex = Some a ->
       recall self' !! sparseIndex
       = Some (a * recallScale denseSize (recallTotal w) - ofZ 1)%A) /\
    recallAccumulator self' = recallAccumulator (self w) /\
    learnFlags self' = learnFlags (self w).
Proof.
  intros Hwf Hnd denseSize.
  destruct (publish_spec nSamples w Hwf) as (buffer & Hpub & _ & _ & Hin).
  fold denseSize in Hpub, Hin.
  exists (set_recallBuffer buffer (self w)). split; [exact Hpub|].
  split; [|split; reflexivity].
  intros i sp a Hsp Ha. destruct (Hin i sp Hsp) as (i' & a' & Hsp' & Ha' & Hv).
  assert (i' = i) by (eapply NoDup_lookup; eassumption). subst i'.
  rewrite Ha in Ha'. injection Ha' as <-. exact Hv.
Qed.

Lemma X12_publish_pairs_dense_with_sparse_witness :
  let this := (start 1 os_ok None [false; true; true] (newVisualMemory 1)).1.1 in
  let w := {| self := set_recallAccumulator [3%Q; 1%Q] this;
              memoryBuffer := [zeroCellQ; zeroCellQ]; recallTotal := 4%Q |} in
  exists self', publish 2 w = Ok self' /\
    recall self' !! 2%nat = Some (1%Q * recallScale 2%nat 4%Q - ofZ 1)%A.
Proof.
  intros this w.
  assert (Hwf : wellFormed 1 (self w)).
  { unfold wellFormed. cbn. repeat split; repeat constructor. }
  assert (Hnd : NoDup (denseToSparsePixelIndex (self w))).
  { apply buildIndex_NoDup. }
  destruct (X12_publish_pairs_dense_with_sparse 1 w Hwf Hnd) as (self' & Hpub & Hall & _).
  exists self'. split; [exact Hpub|]. apply (Hall 1%nat 2%nat 1%Q); reflexivity.
Defined.

(** X13.  Lines 219-281 with every pixel mapped, over exact arithmetic: on a
    well-formed object whose dense index is the identity, with one cell per
    slot and pixel, every sweep completes, and the recall buffer it
    publishes either sums to 0 over the pixels (when [recallTotal] is not 0)
    or holds -1 at every pixel (when it is). *)
Theorem X13_all_mapped_sweep_publishes (n : nat) (slots : list (SlotInput Q))
    (this : VisualMemory Q) (memory : list (Cell Q)) :
  wellFormed (length slots) this ->
  denseToSparsePixelIndex this = seq 0 n ->
  (length slots * n <= length memory)%nat ->
  exists self' memory',
    sweep slots (this, memory) = Ok (self', memory') /\
    ((recallSum self' == 0)%Q \/
     (forall i, (i < n)%nat -> exists v, recall self' !! i = Some v /\ (v == -1)%Q)).
Proof.
  intros Hwf0 Hid Hmem. pose proof Hwf0 as (Hflags & Hacc & Hbuf).
  set (w0 := {| self := set_recallAccumulator
                          (map (fun _ => ofZ 0) (recallAccumulator this)) this;
                memoryBuffer := memory; recallTotal := ofZ 0 |}).
  destruct (learnSlots_complete n slots 0 w0) as [w Hw].
  { exact Hid. }
  { cbn. rewrite length_map, Hacc, Hid. apply length_seq. }
  { cbn. lia. }
  { cbn. lia. }
  destruct (learnSlots_flags _ _ _ _ _ Hw) as (Hfl & _ & _ & Hrb & Hd & Hal).
  cbn in Hfl, Hrb, Hd, Hal. rewrite length_map in Hal.
  assert (Hwf : wellFormed (length slots) (self w)).
  { unfold wellFormed. rewrite Hfl, Hd, Hrb, Hal. repeat split; assumption. }
  destruct (publish_spec (length slots) w Hwf) as (buffer & Hpub & _ & _ & Hin).
  rewrite Hd, Hid, length_seq in Hpub, Hin.
  exists (set_recallBuffer buffer (self w)), (memoryBuffer w). split.
  - unfold sweep. rewrite Hid, length_seq. fold w0. rewrite Hw.
    cbn [mbind result_bind]. rewrite Hpub. reflexivity.
  - destruct (Qeq_dec (recallTotal w) 0) as [Hz|Hnz].
    + right. intros i Hi.
      destruct (Hin i i (lookup_seq_lt 0 n i Hi)) as (i' & a & _ & _ & Hv).
      eexists. split; [exact Hv|].
      rewrite (recallScale_zero_total n _ Hz). arithQ. ring.
    + left.
      apply (proj1 (publish_mean_zero_all_mapped (length slots) n slots this memory w
                      (set_recallBuffer buffer (self w)) Hwf0 Hid Hw Hnz Hpub)).
Qed.

Lemma X13_all_mapped_sweep_publishes_witness :
  let this := (start 1 os_ok None [true; true] (newVisualMemory 1)).1.1 in
  exists self' memory',
    sweep [slotQ 200 (1 # 2)] (this, [zeroCellQ; zeroCellQ]) = Ok (self', memory').
Proof.
  intros this.
  assert (Hwf : wellFormed (length [slotQ 200 (1 # 2)]) this) by apply start_wellFormed.
  assert (Hid : denseToSparsePixelIndex this = seq 0 2) by reflexivity.
  assert (Hmem : (length [slotQ 200 (1 # 2)] * 2 <= length [zeroCellQ; zeroCellQ])%nat)
    by (cbn; lia).
  destruct (X13_all_mapped_sweep_publishes 2 [slotQ 200 (1 # 2)] this
              [zeroCellQ; zeroCellQ] Hwf Hid Hmem) as (self' & memory' & Hrun & _).
  exists self', memory'. exact Hrun.
Defined.

(** X14.  The loop of [learnWorker] with every pixel mapped: on a
    well-formed object whose dense index is the identity, with one cell per
    slot and pixel, any number of sweeps over [nSamples] slots each runs
    without stepping outside a vector, whatever the slots read. *)
Theorem X14_worker_runs_when_all_mapped {T} `{Arith T} (nSamples n : nat)
    (sweeps : list (list (SlotInput T))) (this : VisualMemory T)
    (memory : list (Cell T)) :
  wellFormed nSamples this ->
  denseToSparsePixelIndex this = seq 0 n ->
  (nSamples * n <= length memory)%nat ->
  Forall (fun slots => length slots = nSamples) sweeps ->
  exists self' memory', learnWorker sweeps (this, memory) = Ok (self', memory').
Proof.
  unfold learnWorker. revert this memory.
  induction sweeps as [|slots sweeps IH]; intros this memory Hwf Hid Hmem Hall.
  - exists this, memory. reflexivity.
  - apply Forall_cons in Hall as [Hlen Hall]. cbn [forEach]. subst nSamples.
    destruct (sweep_completes_all_mapped n slots this memory Hwf Hid Hmem)
      as (self1 & memory1 & Hrun).
    rewrite Hrun. cbn [mbind result_bind].
    destruct (sweep_frame _ _ _ _ _ Hrun) as (F1 & F2 & F3 & F4 & F5 & _).
    pose proof (fixedMembers_index _ _ F1) as Hd.
    apply IH.
    + destruct Hwf as (W1 & W2 & W3). unfold wellFormed.
      rewrite F2, F3, F4, Hd. repeat split; assumption.
    + rewrite Hd. exact Hid.
    + rewrite F5. exact Hmem.
    + exact Hall.
Qed.

Lemma X14_worker_runs_when_all_mapped_witness :
  let this := (start 1 os_ok None [true; true] (newVisualMemory 1)).1.1 in
  exists self' memory',
    learnWorker [[slotD (ofZ 200) (ofZ 0)]; [slotD (ofZ 0) (ofZ 0)]]
                (this, [zeroCell; zeroCell]) = Ok (self', memory').
Proof.
  intros this.
  assert (Hwf : wellFormed 1 this) by apply start_wellFormed.
  assert (Hid : denseToSparsePixelIndex this = seq 0 2) by reflexivity.
  assert (Hmem : (1 * 2 <= length [zeroCell; zeroCell])%nat) by (cbn; lia).
  assert (Hall : Forall (fun slots : list (SlotInput double) => length slots = 1%nat)
                        [[slotD (ofZ 200) (ofZ 0)]; [slotD (ofZ 0) (ofZ 0)]]).
  { repeat constructor. }
  exact (X14_worker_runs_when_all_mapped 1 2 _ this [zeroCell; zeroCell]
           Hwf Hid Hmem Hall).
Defined.

(** * The accumulator of an object with unmapped pixels *)



Section AccumulatorFault.
Context {T : Type} {arith : Arith T}.



End AccumulatorFault.



(** * [RecallDebugEffect::shader] *)

Lemma shade_binary64 (v : double) :
  let f := std_min (ofZ 1) (std_max (ofZ 0) v) in
  geb f (ofZ 0) = true /\ geb (ofZ 1) f = true /\
  (v = S754_nan -> f = S754_zero false).
Proof.
  cbv zeta. split; [|split]; [| |intros ->; reflexivity].
  all: unfold std_min, std_max; cbn [ltb geb ArithDouble];
    change (ofZ 0 : double) with (S754_zero false);
    change (ofZ 1 : double) with (S754_finite false 4503599627370496 (-52));
    destruct v as [s|s| |s m e];
    [destruct s; reflexivity|destruct s; reflexivity|reflexivity
    |destruct s; [reflexivity|]];
    unfold SFltb, SFleb; cbn [SFcompare];
    (destruct (Z.compare e (-52)) eqn:Ee;
     [destruct (Pos.compare_cont Eq m 4503599627370496) eqn:Em| |]);
    cbn [SFcompare]; rewrite ?Ee, ?Em; reflexivity.
Qed.

Lemma shade_Q (v : Q) :
  let f := std_min (ofZ 1) (std_max (ofZ 0) v) in
  (0 <= f)%Q /\ (f <= 1)%Q /\
  ((1 <= v)%Q -> f = 1%Q) /\ ((v <= 0)%Q -> f = 0%Q) /\
  ((0 < v)%Q -> (v < 1)%Q -> f = v).
Proof.
  unfold std_min, std_max. arithQ.
  change (inject_Z 0) with 0%Q. change (inject_Z 1) with 1%Q.
  destruct (Qle_bool v 0) eqn:E0; cbn [negb].
  - apply Qle_bool_iff in E0. change (Qle_bool 1 0) with false. cbn [negb].
    split; [lra|]. split; [lra|]. split; [intros; lra|].
    split; [reflexivity|intros; lra].
  - assert (H0 : (0 < v)%Q).
    { apply Qnot_le_lt. intros Hle. apply Qle_bool_iff in Hle. congruence. }
    destruct (Qle_bool 1 v) eqn:E1; cbn [negb].
    + apply Qle_bool_iff in E1.
      split; [lra|]. split; [lra|]. split; [reflexivity|].
      split; [intros; lra|intros; lra].
    + assert (H1 : (v < 1)%Q).
      { apply Qnot_le_lt. intros Hle. apply Qle_bool_iff in Hle. congruence. }
      split; [lra|]. split; [lra|]. split; [intros; lra|].
      split; [intros; lra|reflexivity].
Qed.

(** X16.  [RecallDebugEffect::shader] (lines 94-98): for a pixel index
    inside the recall buffer the three channels get one grey level that
    lies between 0 and 1, in exact arithmetic and, for every recall value
    and sensitivity including NaN and the infinities, in binary64; an index
    outside the buffer is read out of range. *)
Theorem X16_shade_is_a_grey_between_0_and_1 (memQ : VisualMemory Q) (sQ : Q)
    (memD : VisualMemory double) (sD : double) (index : nat) :
  match shader memQ sQ index with
  | Ok (r, g, b) =>
      r = g /\ g = b /\ (0 <= r)%Q /\ (r <= 1)%Q /\ (index < length (recall memQ))%nat
  | Fault f =>
      f = OutOfRange RecallBuffer index (length (recall memQ)) /\
      (length (recall memQ) <= index)%nat
  end /\
  match shader memD sD index with
  | Ok (r, g, b) =>
      r = g /\ g = b /\ geb r (ofZ 0) = true /\ geb (ofZ 1) r = true /\
      (index < length (recall memD))%nat
  | Fault f =>
      f = OutOfRange RecallBuffer index (length (recall memD)) /\
      (length (recall memD) <= index)%nat
  end.
Proof.
  split; unfold shader, vget.
  - destruct (recall memQ !! index) as [v|] eqn:E; cbn [mbind result_bind].
    + destruct (shade_Q ((1 # 2) + v * sQ)%Q) as (H0 & H1 & _).
      change (ofZ 1 / ofZ 2)%A with (1 # 2)%Q. arithQ.
      repeat split; try assumption. eapply lookup_lt_Some, E.
    + split; [reflexivity|]. apply lookup_ge_None_1, E.
  - destruct (recall memD !! index) as [v|] eqn:E; cbn [mbind result_bind].
    + destruct (shade_binary64 (ofZ 1 / ofZ 2 + v * sD)%A) as (H0 & H1 & _).
      repeat split; try assumption. eapply lookup_lt_Some, E.
    + split; [reflexivity|]. apply lookup_ge_None_1, E.
Qed.



(** * Further properties of [debug] *)

(** X18.  [debug] (lines 300-308) on an object without any mapped pixel:
    [ledsWide] is [ceil(sqrt(0)) = 0], and the computation of [ledsHigh]
    divides by it, whatever the sampler and the memory are. *)
Theorem X18_snapshot_without_pixels_divides_by_zero (cs : CameraSampler8Q)
    (this : VisualMemory double) (memory : list (Cell double)) :
  denseToSparsePixelIndex this = [] ->
  debug cs this memory = Fault DivisionByZero.
Proof.
  intros Hd. unfold debug. rewrite Hd. cbn [length].
  change (ceil_to_int (SFsqrt 53 1024 (ofZ (Z.of_nat 0)))) with (Ok (A := Z) 0%Z).
  reflexivity.
Qed.

Lemma X18_snapshot_without_pixels_divides_by_zero_witness :
  debug sampler2 (start 2 os_ok None [false; false] (newVisualMemory 2)).1.1 []
  = Fault DivisionByZero.
Proof.
  apply X18_snapshot_without_pixels_divides_by_zero. reflexivity.
Defined.

Lemma ceil_div_row (n ledsWide led : nat) :
  (0 < ledsWide)%nat -> (led < n)%nat ->
  (led / ledsWide < (n + ledsWide - 1) / ledsWide)%nat.
Proof.
  intros Hw Hled.
  replace (n + ledsWide - 1)%nat with ((n - 1) + 1 * ledsWide)%nat by lia.
  rewrite Nat.div_add by lia.
  assert (led / ledsWide <= (n - 1) / ledsWide)%nat
    by (apply Nat.Div0.div_le_mono; lia).
  lia.
Qed.

(** The raster index of a cell lies inside the raster. *)
Lemma pixel_in_raster (n ledsWide kW kH bx by' led : nat) :
  (0 < ledsWide)%nat -> (led < n)%nat -> (bx < kW)%nat -> (by' < kH)%nat ->
  let width := (ledsWide * kW)%nat in
  let height := ((n + ledsWide - 1) / ledsWide * kH)%nat in
  let x := (bx + (led mod ledsWide) * kW)%nat in
  let y := (by' + (led / ledsWide) * kH)%nat in
  (3 * (y * width + x) + 2 < width * height * 3)%nat.
Proof.
  intros Hw Hled Hbx Hby width height x y.
  pose proof (ceil_div_row n ledsWide led Hw Hled) as Hrow.
  pose proof (Nat.mod_upper_bound led ledsWide ltac:(lia)) as Hcol.
  set (q := (led / ledsWide)%nat) in *. set (r := (led mod ledsWide)%nat) in *.
  set (h := ((n + ledsWide - 1) / ledsWide)%nat) in *.
  assert (Hx : (x < width)%nat) by (unfold x, width; nia).
  assert (Hy : (y < height)%nat) by (unfold y, height; nia).
  nia.
Qed.

Lemma channel_fault (field cellScale : double) (f : fault) :
  channel field cellScale = Fault f -> f = DoubleToInt.
Proof.
  unfold channel. generalize (std_min (ofZ 511 / ofZ 2)%A
    (field * cellScale * (field * cellScale) * (field * cellScale) *
     (field * cellScale) * ofZ 255 + ofZ 1 / ofZ 2)%A).
  intros x. unfold double_to_int. destruct x as [s|s| |s m e]; try congruence.
  destruct (in_int_range _); congruence.
Qed.

Lemma debugLed_raster (cs : CameraSampler8Q) (memory : list (Cell double))
    (n ledsWide : nat) (cellScale : double) (sample led : nat) (image : list Z) :
  (0 < ledsWide)%nat -> (led < n)%nat ->
  (blockX cs sample < kBlocksWide cs)%nat -> (blockY cs sample < kBlocksHigh cs)%nat ->
  length image
  = (ledsWide * kBlocksWide cs * ((n + ledsWide - 1) / ledsWide * kBlocksHigh cs) * 3)%nat ->
  Forall (fun b => (0 <= b < 256)%Z) image ->
  match debugLed cs memory n ledsWide (ledsWide * kBlocksWide cs) cellScale sample led image with
  | Ok image' =>
      length image' = length image /\ Forall (fun b => (0 <= b < 256)%Z) image'
  | Fault (OutOfRange Image _ _) => False
  | Fault _ => True
  end.
Proof.
  intros Hw Hled Hbx Hby Hlen Hbytes.
  pose proof (pixel_in_raster n ledsWide (kBlocksWide cs) (kBlocksHigh cs)
                (blockX cs sample) (blockY cs sample) led Hw Hled Hbx Hby) as Hpix.
  cbv zeta in Hpix. rewrite <- Hlen in Hpix.
  unfold debugLed, vget.
  destruct (memory !! _) as [cell|]; cbn [mbind result_bind]; [|exact I].
  destruct (channel (shortTerm cell) cellScale) as [sI|f] eqn:Es;
    cbn [mbind result_bind]; [|rewrite (channel_fault _ _ _ Es); exact I].
  destruct (channel (longTerm cell) cellScale) as [lI|f] eqn:El;
    cbn [mbind result_bind]; [|rewrite (channel_fault _ _ _ El); exact I].
  unfold vset. rewrite decide_True by lia. cbn [mbind result_bind].
  rewrite decide_True by (rewrite length_insert; lia). cbn [mbind result_bind].
  rewrite decide_True by (rewrite !length_insert; lia).
  rewrite !length_insert. split; [reflexivity|].
  assert (Hu : forall v, (0 <= uint8_t v < 256)%Z)
    by (intros v; unfold uint8_t; apply Z.mod_pos_bound; lia).
  repeat apply Forall_insert; auto.
Qed.

Lemma forEach_invariant {A S} (I : S -> Prop) (G : fault -> Prop)
    (f : A -> S -> result S) (l : list A) (s : S) :
  (forall x s, x ∈ l -> I s ->
     match f x s with Ok s' => I s' | Fault e => G e end) ->
  I s ->
  match forEach f l s with Ok s' => I s' | Fault e => G e end.
Proof.
  revert s. induction l as [|x l IH]; intros s Hstep Hs; [exact Hs|].
  cbn [forEach]. pose proof (Hstep x s ltac:(left) Hs) as Hx.
  destruct (f x s) as [s1|e]; cbn [mbind result_bind]; [|exact Hx].
  apply IH; [|exact Hx]. intros y s' Hy. apply Hstep. right. exact Hy.
Qed.

Lemma ceil_to_int_fault (x : double) (f : fault) :
  ceil_to_int x = Fault f -> f = DoubleToInt.
Proof.
  unfold ceil_to_int. destruct x as [s|s| |s m e]; try congruence.
  destruct (in_int_range _); congruence.
Qed.

Lemma cellMaxOf_fault (memory : list (Cell double)) :
  match cellMaxOf memory with Ok _ => True | Fault e => notImage e end.
Proof.
  unfold cellMaxOf, vget. destruct (memory !! 0%nat) as [first|];
    cbn [mbind result_bind]; [|exact I].
  apply (forEach_invariant (fun _ => True) notImage); [|exact I].
  intros c cellMax _ _. destruct (memory !! c); cbn; exact I.
Qed.

(** X19.  [debug] (lines 298-343) with a sampler whose block coordinates lie
    inside a block grid of [kBlocksWide] by [kBlocksHigh]: it never writes
    outside the raster, whatever the memory holds; and when it completes,
    the raster has [width * height * 3] entries, each a byte. *)
Theorem X19_snapshot_stays_inside_the_raster (cs : CameraSampler8Q)
    (this : VisualMemory double) (memory : list (Cell double)) :
  (forall sample, (sample < kSamples cs)%nat ->
     (blockX cs sample < kBlocksWide cs)%nat /\ (blockY cs sample < kBlocksHigh cs)%nat) ->
  match debug cs this memory with
  | Ok (width, height, image) =>
      length image = (width * height * 3)%nat /\
      Forall (fun b => (0 <= b < 256)%Z) image
  | Fault f => notImage f
  end.
Proof.
  intros Hcs. unfold debug.
  set (n := length (denseToSparsePixelIndex this)).
  destruct (ceil_to_int _) as [w|f] eqn:Ew; cbn [mbind result_bind];
    [|rewrite (ceil_to_int_fault _ _ Ew); exact I].
  set (ledsWide := Z.to_nat w).
  destruct (decide (ledsWide = 0%nat)) as [|Hw]; [exact I|].
  pose proof (cellMaxOf_fault memory) as Hmax.
  destruct (cellMaxOf memory) as [cellMax|f]; cbn [mbind result_bind]; [|exact Hmax].
  set (width := (ledsWide * kBlocksWide cs)%nat).
  set (height := ((n + ledsWide - 1) / ledsWide * kBlocksHigh cs)%nat).
  set (I0 := fun image : list Z =>
               length image = (width * height * 3)%nat /\
               Forall (fun b => (0 <= b < 256)%Z) image).
  assert (Hloop :
    match forEach (fun sample image =>
                     forEach (debugLed cs memory n ledsWide width (ofZ 1 / cellMax)%A sample)
                             (seq 0 n) image)
                  (seq 0 (kSamples cs)) (resize (width * height * 3) 0%Z [])
    with Ok image => I0 image | Fault e => notImage e end).
  { apply (forEach_invariant I0 notImage).
    - intros sample image Hsample Himage. apply elem_of_seq in Hsample.
      destruct (Hcs sample ltac:(lia)) as [Hbx Hby].
      apply (forEach_invariant I0 notImage); [|exact Himage].
      intros led image' Hled [Hlen Hbytes]. apply elem_of_seq in Hled.
      pose proof (debugLed_raster cs memory n ledsWide (ofZ 1 / cellMax)%A sample led
                    image' ltac:(lia) ltac:(lia) Hbx Hby Hlen Hbytes) as Hstep.
      fold width in Hstep.
      destruct (debugLed cs memory n ledsWide width (ofZ 1 / cellMax)%A sample led image')
        as [image''|e].
      + destruct Hstep as [Hl Hb]. split; [rewrite Hl; exact Hlen|exact Hb].
      + destruct e as [[] ? ?| |]; exact Hstep || exact I.
    - split; [apply length_resize|].
      unfold resize. rewrite take_nil. cbn [app]. apply Forall_replicate. lia. }
  destruct (forEach _ (seq 0 (kSamples cs)) _) as [image|e]; cbn [mbind result_bind];
    [exact Hloop|exact Hloop].
Qed.

Lemma X19_snapshot_stays_inside_the_raster_witness :
  match debug sampler2 (start 2 os_ok None [true; true; true] (newVisualMemory 2)).1.1
              (replicate 6 zeroCell) with
  | Ok (width, height, image) => length image = (width * height * 3)%nat
  | Fault f => notImage f
  end.
Proof.
  assert (Hcs : forall sample, (sample < kSamples sampler2)%nat ->
            (blockX sampler2 sample < kBlocksWide sampler2)%nat /\
            (blockY sampler2 sample < kBlocksHigh sampler2)%nat).
  { intros sample Hs. cbn in *. lia. }
  pose proof (X19_snapshot_stays_inside_the_raster sampler2
                (start 2 os_ok None [true; true; true] (newVisualMemory 2)).1.1
                (replicate 6 zeroCell) Hcs) as Hall.
  destruct (debug sampler2 _ _) as [[[width height] image]|f].
  - exact (proj1 Hall).
  - exact Hall.
Defined.

(** ** The maximum taken by [debug] *)

Lemma SFleb_refl (a : double) : a <> S754_nan -> SFleb a a = true.
Proof.
  unfold SFleb, SFcompare. destruct a as [s|s| |s m e]; try destruct s; try reflexivity;
    try congruence; intros _; rewrite Z.compare_refl;
    change (Pos.compare_cont Eq m m) with (Pos.compare m m); rewrite Pos.compare_refl;
    reflexivity.
Qed.

Lemma SFltb_false_leb (a b : double) :
  a <> S754_nan -> b <> S754_nan -> SFltb a b = false -> SFleb b a = true.
Proof.
  unfold SFltb, SFleb, SFcompare.
  destruct a as [sa|sa| |sa ma ea], b as [sb|sb| |sb mb eb]; try congruence;
    try destruct sa; try destruct sb; try (intros _ _; reflexivity || discriminate).
  all: intros _ _;
    change (Pos.compare_cont Eq ma mb) with (Pos.compare ma mb);
    change (Pos.compare_cont Eq mb ma) with (Pos.compare mb ma);
    rewrite (Z.compare_antisym ea eb), (Pos.compare_antisym ma mb);
    destruct (Z.compare ea eb); cbn; try (reflexivity || discriminate);
    destruct (Pos.compare ma mb); cbn; reflexivity || discriminate.
Qed.

Lemma SFleb_trans (a b c : double) :
  SFleb a b = true -> SFleb b c = true -> SFleb a c = true.
Proof.
  unfold SFleb, SFcompare.
  destruct a as [sa|sa| |sa ma ea], b as [sb|sb| |sb mb eb], c as [sc|sc| |sc mc ec];
    try destruct sa; try destruct sb; try destruct sc;
    try (intros; reflexivity || discriminate).
  all: change (Pos.compare_cont Eq ma mb) with (Pos.compare ma mb);
    change (Pos.compare_cont Eq mb mc) with (Pos.compare mb mc);
    change (Pos.compare_cont Eq ma mc) with (Pos.compare ma mc);
    destruct (Z.compare_spec ea eb), (Z.compare_spec eb ec), (Z.compare_spec ea ec);
    try lia; try (intros; reflexivity || discriminate);
    subst;
    destruct (Pos.compare_spec ma mb), (Pos.compare_spec mb mc), (Pos.compare_spec ma mc);
    try lia; try (intros; reflexivity || discriminate).
Qed.

Lemma std_max_binary64 (a b : double) :
  a <> S754_nan -> b <> S754_nan ->
  std_max a b <> S754_nan /\
  SFleb a (std_max a b) = true /\ SFleb b (std_max a b) = true /\
  (std_max a b = a \/ std_max a b = b).
Proof.
  intros Ha Hb. unfold std_max. cbn [ltb ArithDouble].
  destruct (SFltb a b) eqn:E.
  - split; [exact Hb|]. split; [|split; [apply SFleb_refl, Hb|right; reflexivity]].
    revert E. unfold SFltb, SFleb. destruct (SFcompare a b) as [[]|]; congruence.
  - split; [exact Ha|]. split; [apply SFleb_refl, Ha|].
    split; [apply SFltb_false_leb; assumption|left; reflexivity].
Qed.

Lemma cellMax_loop (memory : list (Cell double)) (len a : nat) (cellMax : double) :
  (forall i (cell : Cell double), memory !! i = Some cell -> longTerm cell <> S754_nan) ->
  cellMax <> S754_nan ->
  (a + len <= length memory)%nat ->
  exists cellMax',
    forEach (fun c cellMax =>
               cell ← vget MemoryBuffer memory c;
               Ok (std_max cellMax (longTerm cell)))
            (seq a len) cellMax = Ok cellMax' /\
    cellMax' <> S754_nan /\
    SFleb cellMax cellMax' = true /\
    (forall i (cell : Cell double), (a <= i < a + len)%nat -> memory !! i = Some cell ->
       SFleb (longTerm cell) cellMax' = true) /\
    (cellMax' = cellMax \/
     exists i cell, (a <= i < a + len)%nat /\ memory !! i = Some cell /\
                    cellMax' = longTerm cell).
Proof.
  intros Hnan. revert a cellMax. induction len as [|len IH]; intros a cellMax Hc Hlen.
  - exists cellMax. split; [reflexivity|]. split; [exact Hc|].
    split; [apply SFleb_refl, Hc|]. split; [intros i cell Hi; lia|left; reflexivity].
  - cbn [seq forEach]. cbv beta.
    destruct (lookup_lt_is_Some_2 memory a) as [cell Hcell]; [lia|].
    replace (vget MemoryBuffer memory a) with (Ok cell)
      by (unfold vget; rewrite Hcell; reflexivity).
    cbn [mbind result_bind].
    destruct (std_max_binary64 cellMax (longTerm cell) Hc (Hnan a cell Hcell))
      as (Hm & Hle1 & Hle2 & Hor).
    destruct (IH (S a) (std_max cellMax (longTerm cell)) Hm) as (c' & Hrun & Hc' & Hle & Hall & Hex);
      [lia|].
    exists c'. split; [exact Hrun|]. split; [exact Hc'|].
    split; [eapply SFleb_trans; eassumption|]. split.
    + intros i cell' Hi Hcell'. destruct (decide (i = a)) as [Heq|Hne].
      * rewrite Heq, Hcell in Hcell'. injection Hcell' as <-.
        eapply SFleb_trans; eassumption.
      * apply (Hall i cell'); [lia|exact Hcell'].
    + destruct Hex as [->|(i & cell' & Hi & Hcell' & ->)].
      * destruct Hor as [->| ->]; [left; reflexivity|].
        right. exists a, cell. split; [lia|]. split; [exact Hcell|reflexivity].
      * right. exists i, cell'. split; [lia|]. split; [exact Hcell'|reflexivity].
Qed.

(** X20.  The extent loop of [debug] (lines 313-317): on a grid of at least
    one cell none of whose long-term memories is NaN, [cellMax] is the
    long-term memory of one of the cells and no long-term memory of the grid
    compares above it; on an empty grid the read of [memoryBuffer[0]] is out
    of range. *)
Theorem X20_cellMax_is_the_largest_longTerm (memory : list (Cell double)) :
  (forall cell : Cell double, cell ∈ memory -> longTerm cell <> S754_nan) ->
  match memory with
  | [] => cellMaxOf memory = Fault (OutOfRange MemoryBuffer 0 0)
  | _ :: _ =>
      exists cellMax,
        cellMaxOf memory = Ok cellMax /\
        (forall cell : Cell double, cell ∈ memory -> geb cellMax (longTerm cell) = true) /\
        (exists cell : Cell double, cell ∈ memory /\ cellMax = longTerm cell)
  end.
Proof.
  intros Hnan. destruct memory as [|first rest]; [reflexivity|].
  unfold cellMaxOf, vget. cbn [lookup list_lookup mbind result_bind].
  assert (Hnan' : forall i (cell : Cell double), (first :: rest) !! i = Some cell ->
                                 longTerm cell <> S754_nan).
  { intros i cell Hi. apply Hnan. eapply list_elem_of_lookup_2, Hi. }
  destruct (cellMax_loop (first :: rest) (length (first :: rest) - 1) 1 (longTerm first)
              Hnan') as (c & Hrun & _ & Hle & Hall & Hex).
  { apply (Hnan' 0%nat first). reflexivity. }
  { cbn [length]. lia. }
  exists c. split; [exact Hrun|]. split.
  - intros cell Hcell. apply list_elem_of_lookup_1 in Hcell as [i Hi].
    cbn [geb ArithDouble]. destruct i as [|i].
    + injection Hi as <-. exact Hle.
    + apply (Hall (S i) cell); [|exact Hi].
      apply lookup_lt_Some in Hi. cbn [length] in Hi |- *. lia.
  - destruct Hex as [->|(i & cell & _ & Hi & ->)].
    + exists first. split; [left|reflexivity].
    + exists cell. split; [eapply list_elem_of_lookup_2, Hi|reflexivity].
Qed.

Lemma X20_cellMax_is_the_largest_longTerm_witness :
  exists cellMax,
    cellMaxOf [zeroCell; {| shortTerm := ofZ 0; longTerm := ofZ 3 |}; zeroCell]
    = Ok cellMax /\ geb cellMax (ofZ 3) = true.
Proof.
  assert (Hnan : forall cell : Cell double,
            cell ∈ [zeroCell; {| shortTerm := ofZ 0; longTerm := ofZ 3 |}; zeroCell] ->
            longTerm cell <> S754_nan).
  { intros cell Hcell. repeat (apply elem_of_cons in Hcell as [->|Hcell]);
      [discriminate|discriminate|discriminate|inversion Hcell]. }
  destruct (X20_cellMax_is_the_largest_longTerm _ Hnan) as (c & Hrun & Hall & _).
  exists c. split; [exact Hrun|].
  apply (Hall {| shortTerm := ofZ 0; longTerm := ofZ 3 |}). right. left.
Defined.
